(** * Prefect client slice: collection utilities, variable access, flows

    A shallow embedding of
    - [src/prefect/utilities/collections.py]
    - [src/prefect/variables.py]
    - [src/prefect/core/flow.py]
    followed by the properties of the specification, each settled against
    the embedded code. *)

From Stdlib Require Import List ZArith String Bool Arith Lia Permutation FinFun.
Import ListNotations.
Local Open Scope list_scope.

Set Implicit Arguments.
Set Warnings "-register-all".

(* ================================================================== *)
(** * Python preliminaries *)
(* ================================================================== *)

(** Exceptions that the embedded code, or a boundary it calls, can raise. *)
Inductive exn : Type :=
| IndexError
| TypeError (msg : string)
| AttributeError (msg : string)
| ValueError (msg : string)
| BoundaryError (code : nat).

(** A Python computation either returns or raises. *)
Inductive res (A : Type) : Type :=
| Ok (a : A)
| Raise (e : exn).
Arguments Ok {A} a.
Arguments Raise {A} e.

Definition bind {A B : Type} (m : res A) (f : A -> res B) : res B :=
  match m with
  | Ok a => f a
  | Raise e => Raise e
  end.

Notation "x <- m ;; k" := (bind m (fun x => k))
  (at level 61, m at next level, right associativity).

(** A computation that also talks to the world outside the process (the
    orchestration service, the body of a user's function): it is run from
    a state and leaves one, whether it returns or raises. *)
Definition io (W A : Type) : Type := W -> res A * W.

Definition io_ret {W A : Type} (a : A) : io W A := fun w => (Ok a, w).

Definition io_raise {W A : Type} (e : exn) : io W A := fun w => (Raise e, w).

Definition io_lift {W A : Type} (r : res A) : io W A := fun w => (r, w).

Definition io_bind {W A B : Type} (m : io W A) (f : A -> io W B) : io W B :=
  fun w =>
    match m w with
    | (Ok a, w') => f a w'
    | (Raise e, w') => (Raise e, w')
    end.

Notation "x <~ m ;; k" := (io_bind m (fun x => k))
  (at level 61, m at next level, right associativity).

(** Hashable keys: all the embedding needs of [__hash__]/[__eq__] is a
    decidable equality. *)
Class Hashable (A : Type) : Type :=
  key_eq_dec : forall a b : A, {a = b} + {a <> b}.

#[export] Instance Hashable_nat : Hashable nat := Nat.eq_dec.
#[export] Instance Hashable_string : Hashable string := string_dec.
#[export] Instance Hashable_tuple {A : Type} `{Hashable A} : Hashable (list A) :=
  list_eq_dec key_eq_dec.

(** ** The built-in [dict]

    A [dict] keeps its entries in insertion order and holds a key once:
    an association list whose keys are pairwise distinct. *)
Module pydict.
Section Dict.
Context {A B : Type} `{Hashable A}.

(** [d.get(k)] *)
Fixpoint get (d : list (A * B)) (k : A) : option B :=
  match d with
  | [] => None
  | (k', v) :: rest => if key_eq_dec k k' then Some v else get rest k
  end.

(** [d[k] = v]: an existing key keeps its place, a new key goes last. *)
Fixpoint setitem (d : list (A * B)) (k : A) (v : B) : list (A * B) :=
  match d with
  | [] => [(k, v)]
  | (k', v') :: rest =>
      if key_eq_dec k k' then (k', v) :: rest
      else (k', v') :: setitem rest k v
  end.

(** [dict(items)]: the pairs are stored one after the other. *)
Definition of_items (items : list (A * B)) : list (A * B) :=
  fold_left (fun d kv => setitem d (fst kv) (snd kv)) items [].

Definition keys (d : list (A * B)) : list A := map fst d.
End Dict.
End pydict.

(* ================================================================== *)
(** * [prefect.utilities.collections] *)
(* ================================================================== *)

Module collections.
Section Flatten.
Context {KT VT DT : Type} `{Hashable KT}.

(** A value stored in a nested dictionary.  [isinstance(v, dict)] holds
    of [Dict] and of nothing else: [typ] is the class of the object,
    [dict] itself or a subclass of it, and [items] are its entries.  A
    [Leaf] is any other object. *)
Inductive value : Type :=
| Leaf (x : VT)
| Dict (typ : DT) (items : list (KT * value)).

(** The entries of a mapping, of a tuple of keys, and of a flat
    mapping. *)
Definition dict : Type := list (KT * value).
Definition tuple : Type := list KT.
Definition flatdict : Type := list (tuple * value).

(** What the two functions ask of the objects they do not look into.

    [construct typ items] is the call [typ(items)] of the class of a
    mapping on a list of pairs: the entries of the mapping it returns, in
    their order, or the exception it raises.  [dict] and [OrderedDict]
    store the pairs; [defaultdict] takes its first argument for the
    default factory and raises [TypeError]; [Counter] counts the pairs.

    [leaf_walk typ x prefix last v] is what the walk of
    [flatdict_to_dict] does from a stored object [x] that is not a
    [dict]: [x.setdefault(k, typ())] for the keys of [prefix], each on
    what the one before returned, and then the item assignment of [v] at
    [last].  It gives the object [x] as these calls leave it, or the
    exception they raise: an integer has neither [setdefault] nor item
    assignment, a list takes an item at an index it has. *)
Class Objects : Type := {
  construct : DT -> flatdict -> res flatdict;
  leaf_walk : DT -> VT -> tuple -> KT -> value -> res VT }.

Context {objects : Objects}.

(** What one entry [(k, v)] adds to [items] in the loop of
    [dict_to_flatdict], [k_parent] being [parent + (k,)]: the items of
    the recursive call when [v] is a dict, the pair itself otherwise.
    The recursive call runs its own loop, entry after entry, and returns
    [typ(items)], [typ] being the class of [v]. *)
Fixpoint flat_items (v : value) (k_parent : tuple) : res flatdict :=
  match v with
  | Dict typ dct =>
      items <-
        (fix loop (its : dict) : res flatdict :=
           match its with
           | [] => Ok []
           | (k, v') :: rest =>
               added <- flat_items v' (k_parent ++ [k]) ;;
               items <- loop rest ;;
               Ok (added ++ items)
           end) dct ;;
      construct typ items
  | Leaf _ => Ok [(k_parent, v)]
  end.

(** [dict_to_flatdict(dct, _parent)] for a [dct] of class [typ] that
    holds the entries [dct]; [parent = _parent or tuple()]. *)
Definition dict_to_flatdict (typ : DT) (dct : dict) (_parent : option tuple)
  : res flatdict :=
  let parent := match _parent with Some p => p | None => [] end in
  flat_items (Dict typ dct) parent.

(** The loop of [dict_to_flatdict] by itself: the [items] it has
    gathered from the entries [dct] when it ends. *)
Definition gather (parent : tuple) (dct : dict) : res flatdict :=
  fold_right
    (fun kv gathered =>
       added <- flat_items (snd kv) (parent ++ [fst kv]) ;;
       items <- gathered ;;
       Ok (added ++ items))
    (Ok []) dct.

(** [(key_tuple[:-1], key_tuple[-1])], nothing for the empty tuple. *)
Fixpoint split_last (key_tuple : tuple) : option (tuple * KT) :=
  match key_tuple with
  | [] => None
  | k :: rest =>
      match split_last rest with
      | None => Some ([], k)
      | Some (prefix, last) => Some (k :: prefix, last)
      end
  end.

(** The inner loop of [flatdict_to_dict] and the assignment after it,
    on the dictionary [current_dict] refers to.  [typ()] is an empty
    mapping of the class, as it is for [dict] and for the subclasses the
    standard library has.  [setdefault] returns the stored object, so the
    update of the child is an update of the entry of [current_dict]: a
    stored dict keeps its class, and the walk goes on in a stored object
    that is no dict as that object has it.  The values of the flat
    mapping are taken as objects of their own: one object stored under
    two keys and changed through one of them is not followed to the
    other. *)
Fixpoint descend (typ : DT) (current_dict : dict) (prefix : tuple) (last : KT)
    (v : value) : res dict :=
  match prefix with
  | [] => Ok (pydict.setitem current_dict last v)
  | prefix_key :: prefix' =>
      let stored :=
        match pydict.get current_dict prefix_key with
        | Some o => o
        | None => Dict typ []
        end in
      match stored with
      | Dict t child =>
          child' <- descend typ child prefix' last v ;;
          Ok (pydict.setitem current_dict prefix_key (Dict t child'))
      | Leaf x =>
          x' <- leaf_walk typ x prefix' last v ;;
          Ok (pydict.setitem current_dict prefix_key (Leaf x'))
      end
  end.

(** One turn of the outer loop of [flatdict_to_dict]. *)
Definition assign (typ : DT) (result : dict) (key_tuple : tuple) (v : value)
  : res dict :=
  match split_last key_tuple with
  | None => Raise IndexError
  | Some (prefix, last) => descend typ result prefix last v
  end.

Fixpoint flatdict_to_dict_loop (typ : DT) (items : flatdict) (result : dict)
  : res dict :=
  match items with
  | [] => Ok result
  | (key_tuple, v) :: rest =>
      result' <- assign typ result key_tuple v ;;
      flatdict_to_dict_loop typ rest result'
  end.

(** [flatdict_to_dict(dct)] for a [dct] of class [typ]: the entries of
    the result, which is of class [typ] as well. *)
Definition flatdict_to_dict (typ : DT) (dct : flatdict) : res dict :=
  flatdict_to_dict_loop typ dct [].
End Flatten.

Arguments value : clear implicits.
Arguments dict : clear implicits.
Arguments tuple : clear implicits.
Arguments flatdict : clear implicits.
Arguments Objects : clear implicits.

(** ** Vocabulary of the round-trip laws *)

Section Nested.
Context {KT VT DT : Type}.

(** A nested dictionary as Python can hold it: at every level the keys
    are pairwise distinct. *)
Inductive well_formed : dict KT VT DT -> Prop :=
| wf_empty : well_formed []
| wf_leaf k x rest :
    ~ In k (pydict.keys rest) -> well_formed rest ->
    well_formed ((k, Leaf x) :: rest)
| wf_dict k t sub rest :
    ~ In k (pydict.keys rest) -> well_formed sub -> well_formed rest ->
    well_formed ((k, Dict t sub) :: rest).

(** No dictionary stored below the root is empty. *)
Inductive no_empty_dict : dict KT VT DT -> Prop :=
| ne_empty : no_empty_dict []
| ne_leaf k x rest : no_empty_dict rest -> no_empty_dict ((k, Leaf x) :: rest)
| ne_dict k t sub rest :
    sub <> [] -> no_empty_dict sub -> no_empty_dict rest ->
    no_empty_dict ((k, Dict t sub) :: rest).

(** Every dictionary stored below the root is of a class that [P] holds
    of. *)
Inductive all_classes (P : DT -> Prop) : dict KT VT DT -> Prop :=
| ac_empty : all_classes P []
| ac_leaf k x rest : all_classes P rest -> all_classes P ((k, Leaf x) :: rest)
| ac_dict k t sub rest :
    P t -> all_classes P sub -> all_classes P rest ->
    all_classes P ((k, Dict t sub) :: rest).

(** [not isinstance(v, dict)] *)
Definition is_leaf (v : value KT VT DT) : Prop :=
  match v with
  | Leaf _ => True
  | Dict _ _ => False
  end.

Definition under (k : KT) (e : tuple KT * value KT VT DT)
  : tuple KT * value KT VT DT :=
  (k :: fst e, snd e).

(** An entry seen from [parent] levels higher up. *)
Definition below (parent : tuple KT) (e : tuple KT * value KT VT DT)
  : tuple KT * value KT VT DT :=
  (parent ++ fst e, snd e).

(** The leaves below a value, each with the keys that lead to it. *)
Fixpoint paths (v : value KT VT DT) : flatdict KT VT DT :=
  match v with
  | Leaf _ => [([], v)]
  | Dict _ d =>
      (fix all (its : dict KT VT DT) : flatdict KT VT DT :=
         match its with
         | [] => []
         | (k, v') :: rest => map (under k) (paths v') ++ all rest
         end) d
  end.

(** The leaves of the entries of a dictionary. *)
Definition leaves (d : dict KT VT DT) : flatdict KT VT DT :=
  flat_map (fun kv => map (under (fst kv)) (paths (snd kv))) d.

(** A value with every dictionary in it made an instance of [typ]. *)
Fixpoint retype_value (typ : DT) (v : value KT VT DT) : value KT VT DT :=
  match v with
  | Leaf _ => v
  | Dict _ d =>
      Dict typ
        ((fix all (its : dict KT VT DT) : dict KT VT DT :=
            match its with
            | [] => []
            | (k, v') :: rest => (k, retype_value typ v') :: all rest
            end) d)
  end.

(** The entries of a dictionary with every dictionary stored below them
    made an instance of [typ]: the keys, the leaves and their order are
    the same. *)
Definition retype (typ : DT) (d : dict KT VT DT) : dict KT VT DT :=
  map (fun kv => (fst kv, retype_value typ (snd kv))) d.

(** [p] neither continues a key of [ks] nor is continued by one. *)
Definition apart (p : list KT) (ks : list (list KT)) : Prop :=
  forall q, In q ks -> (forall s, q <> p ++ s) /\ (forall s, p <> q ++ s).

(** No key of a flat dictionary continues another one. *)
Definition prefix_free (ks : list (list KT)) : Prop :=
  forall p q, In p ks -> In q ks -> (exists s, q = p ++ s) -> p = q.
End Nested.

(** A class whose constructor builds the mapping of a list of pairs, as
    [dict(items)] does: a pair whose key has come before replaces the
    value stored under it. *)
Definition builds_from_pairs {KT VT DT : Type} `{Hashable KT}
    {objects : Objects KT VT DT} (typ : DT) : Prop :=
  forall items : flatdict KT VT DT,
    construct typ items = Ok (pydict.of_items items).

(** Every dictionary stored below the root is of such a class. *)
Definition plain {KT VT DT : Type} `{Hashable KT}
    {objects : Objects KT VT DT} (d : dict KT VT DT) : Prop :=
  all_classes builds_from_pairs d.

(** Every dictionary stored below the root is an instance of [typ]. *)
Definition uniform {KT VT DT : Type} (typ : DT) (d : dict KT VT DT) : Prop :=
  all_classes (eq typ) d.

(** ** [ensure_iterable], [extract_instances] *)

(** The argument of [ensure_iterable]: a [Sequence] or [Set], or any
    other single object. *)
Inductive one_or_many (T : Type) : Type :=
| Single (obj : T)
| Collection (objs : list T).
Arguments Single {T} obj.
Arguments Collection {T} objs.

Definition ensure_iterable {T : Type} (obj : one_or_many T) : list T :=
  match obj with
  | Collection objs => objs
  | Single o => [o]
  end.

(** What [extract_instances] returns: [ret[types[0]]], or [ret] itself,
    the [defaultdict] with the lists stored so far. *)
Inductive extracted (ty obj : Type) : Type :=
| Instances (l : list obj)
| ByType (ret : list (ty * list obj)).
Arguments Instances {ty obj} l.
Arguments ByType {ty obj} ret.

Section Extract.
Context {ty obj : Type} `{Hashable ty}.
Variable isinstance : obj -> ty -> bool.

(** [ret[key]] on a [defaultdict(list)]: a missing key reads as the
    empty list. *)
Definition defaultdict_getitem (ret : list (ty * list obj)) (key : ty)
  : list obj :=
  match pydict.get ret key with
  | Some l => l
  | None => []
  end.

(** [ret[type_].append(o)] *)
Definition defaultdict_append (ret : list (ty * list obj)) (type_ : ty)
    (o : obj) : list (ty * list obj) :=
  pydict.setitem ret type_ (defaultdict_getitem ret type_ ++ [o]).

(** [for type_ in types: if isinstance(o, type_): ret[type_].append(o)] *)
Definition extract_one (types : list ty) (ret : list (ty * list obj))
    (o : obj) : list (ty * list obj) :=
  fold_left
    (fun ret type_ =>
       if isinstance o type_ then defaultdict_append ret type_ o else ret)
    types ret.

Definition extract_instances (objects : list obj) (types : one_or_many ty)
  : extracted ty obj :=
  let types := ensure_iterable types in
  let ret := fold_left (extract_one types) objects [] in
  match types with
  | [type0] => Instances (defaultdict_getitem ret type0)
  | _ => ByType ret
  end.
End Extract.

(** ** [batched_iterable] *)

(** How a run of the generator's loop ends. *)
Inductive run (A : Type) : Type :=
| Exhausted (yielded : A)
| Raised (e : exn)
| Running.
Arguments Exhausted {A} yielded.
Arguments Raised {A} e.
Arguments Running {A}.

(** [sys.maxsize], the largest [Py_ssize_t]: [2 ** 63 - 1] on the 64-bit
    builds of CPython. *)
Definition maxsize : Z := 9223372036854775807.

Section Batched.
Context {T S : Type}.

(** [iter(iterable)]: an iterator is a state and its [__next__], which
    gives [None] for [StopIteration] and leaves the state as it is then. *)
Variable next : S -> option (T * S).

(** [tuple(itertools.islice(it, stop))] for [0 <= stop]: the elements
    taken and the iterator after them. *)
Fixpoint islice (it : S) (stop : nat) : list T * S :=
  match stop with
  | O => ([], it)
  | Datatypes.S stop' =>
      match next it with
      | None => ([], it)
      | Some (x, it') =>
          let (xs, it'') := islice it' stop' in (x :: xs, it'')
      end
  end.

(** The [while True] loop; [fuel] bounds the number of turns. *)
Fixpoint batched_loop (fuel : nat) (it : S) (size : nat)
  : option (list (list T)) :=
  match fuel with
  | O => None
  | Datatypes.S fuel' =>
      let (batch, it') := islice it size in
      match batch with
      | [] => Some []
      | _ :: _ =>
          match batched_loop fuel' it' size with
          | Some batches => Some (batch :: batches)
          | None => None
          end
      end
  end.

(** The batches [batched_iterable(iterable, size)] yields when it is
    consumed to its end.  [itertools.islice] takes a stop from 0 to
    [sys.maxsize] and refuses any other integer when it is called, at the
    first turn of the loop. *)
Definition batched_iterable (fuel : nat) (iterable : S) (size : Z)
  : run (list (list T)) :=
  if ((size <? 0) || (maxsize <? size))%Z then
    match fuel with
    | O => Running
    | _ =>
        Raised (ValueError "Stop argument for islice() must be None or an integer: 0 <= x <= sys.maxsize.")
    end
  else
    match batched_loop fuel iterable (Z.to_nat size) with
    | Some batches => Exhausted batches
    | None => Running
    end.

(** A finite iterable: the elements its iterator gives before it stops. *)
Inductive drains : S -> list T -> Prop :=
| drains_stop it : next it = None -> drains it []
| drains_next it x it' l :
    next it = Some (x, it') -> drains it' l -> drains it (x :: l).
End Batched.

(** [iter] of a list. *)
Definition list_next {T : Type} (it : list T) : option (T * list T) :=
  match it with
  | [] => None
  | x :: rest => Some (x, rest)
  end.

(** ** [listrepr] *)

Section Listrepr.
Context {T : Type}.

(** [repr(obj)] *)
Variable repr : T -> string.

(** [listrepr(objs, sep=" ")]: [sep.join(repr(obj) for obj in objs)];
    [None] stands for a call that leaves [sep] out. *)
Definition listrepr (objs : list T) (sep : option string) : string :=
  let sep := match sep with Some s => s | None => " "%string end in
  String.concat sep (map repr objs).
End Listrepr.

(** ** More vocabulary for nested dictionaries and iterators *)

Section Walk.
Context {KT VT DT : Type} `{Hashable KT}.

(** [d[k1][k2]...[kn]] where every step but the last goes through a
    dictionary; nothing when a key is missing, when an object that is no
    dictionary is on the way, or when there is no key at all. *)
Fixpoint lookup_path (d : dict KT VT DT) (p : tuple KT)
  : option (value KT VT DT) :=
  match p with
  | [] => None
  | k :: rest =>
      match pydict.get d k with
      | None => None
      | Some v =>
          match rest with
          | [] => Some v
          | _ :: _ =>
              match v with
              | Dict _ sub => lookup_path sub rest
              | Leaf _ => None
              end
          end
      end
  end.

(** A value without the dictionaries that hold no leaf: the empty ones
    and those that only hold such dictionaries. *)
Fixpoint prune_value (v : value KT VT DT) : value KT VT DT :=
  match v with
  | Leaf _ => v
  | Dict t d =>
      Dict t
        ((fix all (its : dict KT VT DT) : dict KT VT DT :=
            match its with
            | [] => []
            | (k, v') :: rest =>
                match prune_value v' with
                | Dict _ [] => all rest
                | kept => (k, kept) :: all rest
                end
            end) d)
  end.

(** The entries of a dictionary without the dictionaries that hold no
    leaf. *)
Fixpoint prune (d : dict KT VT DT) : dict KT VT DT :=
  match d with
  | [] => []
  | (k, v) :: rest =>
      match prune_value v with
      | Dict _ [] => prune rest
      | kept => (k, kept) :: prune rest
      end
  end.
End Walk.

(** An iterator that never raises [StopIteration]: some property holds
    of its state and is kept by every [__next__], which always gives an
    element. *)
Definition endless {T S : Type} (next : S -> option (T * S)) (it : S) : Prop :=
  exists P : S -> Prop,
    P it /\ forall s, P s -> exists x s', next s = Some (x, s') /\ P s'.

(** [itertools.count(start)] *)
Definition count_next (it : nat) : option (nat * nat) :=
  Some (it, Datatypes.S it).

End collections.

(* ================================================================== *)
(** * [prefect.variables] *)
(* ================================================================== *)

Module variables.

(** Modelled from the spec: the variable record of the client's schemas,
    which the slice does not contain: "a variable record with a [value]
    field".  An instance is an ordinary object, so it is true in a
    condition; [None] stands for the not-found outcome. *)
Record Variable_ : Type := { value : string }.

Section Get.
Context {World : Type}.

(** [client.read_variable_by_name(name)], the remote boundary. *)
Variable read_variable_by_name : string -> io World (option Variable_).

(** [inject_client] passes the client in; the coroutine awaits the
    boundary and returns what it gave. *)
Definition _get_variable_by_name (name : string)
  : io World (option Variable_) :=
  variable <~ read_variable_by_name name ;;
  io_ret variable.

(** [get(name, default=None)]; the call is run to its result in the loop
    thread, an exception of it is raised again by [.result()]. *)
Definition get (name : string) (default : option string)
  : io World (option string) :=
  variable <~ _get_variable_by_name name ;;
  io_ret
    match variable with
    | Some v => Some (value v)
    | None => default
    end.
End Get.
End variables.

(* ================================================================== *)
(** * [prefect.core.flow] *)
(* ================================================================== *)

Module flow.
Open Scope string_scope.

(** ** Objects *)

(** What the constructor reads of a callable: its truth value, the
    attributes [functools.update_wrapper] copies, the [__file__] entry of
    its [__globals__], and its own attribute dictionary.  [None] in
    [__module__], [__name__], [__qualname__], [__annotations__] and
    [__globals__] says that the object has no such attribute; [__doc__]
    is always there and may be [None].  [inherited_doc] is the
    documentation [inspect] finds higher up for an object whose
    [__doc__] is [None]: that of the method it overrides in a base class,
    [None] when there is none.  [code] tells which body runs. *)
Record callable_object (O : Type) : Type := {
  code : nat;
  truth : bool;
  __module__ : option string;
  __name__ : option string;
  __qualname__ : option string;
  __doc__ : option string;
  inherited_doc : option string;
  __annotations__ : option O;
  __globals__ : option (option string);
  __dict__ : list (string * O) }.

Inductive pyobj : Type :=
| PyNone
| PyInt (z : Z)
| PyStr (s : string)
| PyObject (id : nat) (truth : bool)
| PyCallable (c : callable_object pyobj).

Definition callable_obj : Type := callable_object pyobj.

(** [bool(o)] *)
Definition truthy (o : pyobj) : bool :=
  match o with
  | PyNone => false
  | PyInt z => negb (z =? 0)%Z
  | PyStr s => negb (s =? "")
  | PyObject _ t => t
  | PyCallable c => truth c
  end.

(** [callable(o)] *)
Definition callable (o : pyobj) : bool :=
  match o with
  | PyCallable _ => true
  | _ => false
  end.

(** [*args, **kwargs] *)
Record Args : Type := { args : list pyobj; kwargs : list (string * pyobj) }.

Section Flow.
Context {World RunId ParameterSchema : Type}.

(** A value held by an attribute of a [Flow]. *)
Inductive attr : Type :=
| Plain (o : pyobj)
| Validated (c : callable_obj)
| StrSet (elts : list string)
| Schema (s : ParameterSchema).

(** A [Flow] instance is its attribute dictionary. *)
Definition Flow : Type := list (string * attr).

Definition getattr (self : Flow) (name : string) : res attr :=
  match pydict.get self name with
  | Some a => Ok a
  | None => Raise (AttributeError name)
  end.

Definition setattr (self : Flow) (name : string) (a : attr) : Flow :=
  pydict.setitem self name a.

(** Modelled from the spec: the run handle of [prefect.core.futures],
    which the slice does not contain: it "pairs" the run identifier and
    the result and has "no further behavior". *)
Record PrefectFuture : Type := { run_id : RunId; result : pyobj }.

(** What the module imports and calls: the standard library's
    [inspect], pydantic's look at a callable when it wraps it and its
    coercion when the wrapper is called, the helpers of the package that
    the slice does not contain, the bodies of the users' callables and
    the orchestration service. *)
Class Boundary : Type := {
  cleandoc : string -> string;
  ValidatedFunction : callable_obj -> res unit;
  file_hash : string -> res string;
  parameter_schema : attr -> res ParameterSchema;
  bind_partial : attr -> Args -> res (list (string * pyobj));
  coerce : callable_obj -> Args -> res Args;
  body : callable_obj -> Args -> io World pyobj;
  create_flow_run_sync : Flow -> list (string * pyobj) -> io World RunId }.

Context {boundary : Boundary}.

(** ** Construction *)

(** [getattr(c, name)]; [None] for [AttributeError]. *)
Definition getattr_callable (c : callable_obj) (name : string)
  : option pyobj :=
  let own := pydict.get (__dict__ c) name in
  let str (field : option string) :=
    match field with Some s => Some (PyStr s) | None => own end in
  if name =? "__module__" then str (__module__ c)
  else if name =? "__name__" then str (__name__ c)
  else if name =? "__qualname__" then str (__qualname__ c)
  else if name =? "__doc__" then
    Some match __doc__ c with Some d => PyStr d | None => PyNone end
  else if name =? "__annotations__" then
    match __annotations__ c with Some a => Some a | None => own end
  else own.

(** [inspect.getdoc(fn)]: the object's own [__doc__], the one found
    higher up when that is [None], cleaned of its indentation. *)
Definition getdoc (c : callable_obj) : option string :=
  let doc :=
    match __doc__ c with
    | Some own => Some own
    | None => inherited_doc c
    end in
  option_map cleandoc doc.

Definition WRAPPER_ASSIGNMENTS : list string :=
  ["__module__"; "__name__"; "__qualname__"; "__doc__"; "__annotations__"].

(** [functools.update_wrapper(wrapper, wrapped)]: the attributes of
    [WRAPPER_ASSIGNMENTS] that [wrapped] has are set on [wrapper], then
    [wrapper.__dict__.update(wrapped.__dict__)], then [__wrapped__]. *)
Definition update_wrapper (wrapper : Flow) (wrapped : callable_obj) : Flow :=
  let assigned :=
    fold_left
      (fun w name =>
         match getattr_callable wrapped name with
         | Some v => setattr w name (Plain v)
         | None => w
         end)
      WRAPPER_ASSIGNMENTS wrapper in
  let updated :=
    fold_left (fun w kv => setattr w (fst kv) (Plain (snd kv)))
      (__dict__ wrapped) assigned in
  setattr updated "__wrapped__" (Plain (PyCallable wrapped)).

(** [pydantic.validate_arguments(fn)]: pydantic reads the signature
    and the type hints of the callable, which fails for a callable it
    cannot take, and returns the wrapper. *)
Definition validate_arguments (c : callable_obj) : res attr :=
  checked <- ValidatedFunction c ;;
  Ok (Validated c).

(** [x or y] on an optional string: [None] and the empty string are
    false. *)
Definition given (x : option string) : option string :=
  match x with
  | Some s => if s =? "" then None else Some s
  | None => None
  end.

(** [Flow.__init__] *)
Definition __init__ (name : option string) (fn : pyobj)
    (version : option string) (executor : pyobj)
    (description : option string) (tags : option (list string))
  : res Flow :=
  if negb (truthy fn) then
    Raise (TypeError "__init__() missing 1 required argument: 'fn'")
  else
    match fn with
    | PyCallable c =>
        name' <-
          match given name with
          | Some n => Ok (PyStr n)
          | None =>
              match getattr_callable c "__name__" with
              | Some n => Ok n
              | None => Raise (AttributeError "__name__")
              end
          end ;;
        let self := setattr [] "name" (Plain name') in
        let description' :=
          match given description with
          | Some d => PyStr d
          | None =>
              match getdoc c with Some d => PyStr d | None => PyNone end
          end in
        let self := setattr self "description" (Plain description') in
        validated <- validate_arguments c ;;
        let self := setattr self "fn" validated in
        let self := update_wrapper self c in
        flow_file <-
          match __globals__ c with
          | Some file => Ok file
          | None => Raise (AttributeError "__globals__")
          end ;;
        version' <-
          match given version with
          | Some v => Ok (PyStr v)
          | None =>
              match given flow_file with
              | Some path => h <- file_hash path ;; Ok (PyStr h)
              | None => Ok PyNone
              end
          end ;;
        let self := setattr self "version" (Plain version') in
        let self := setattr self "executor" (Plain executor) in
        let self :=
          setattr self "tags"
            (StrSet (nodup string_dec
                       match tags with
                       | Some (t :: ts) => t :: ts
                       | _ => []
                       end)) in
        fn' <- getattr self "fn" ;;
        parameters <- parameter_schema fn' ;;
        Ok (setattr self "parameters" (Schema parameters))
    | _ => Raise (TypeError "'fn' must be callable")
    end.

(** ** Invocation *)

(** What an invocation does, in the order it does it. *)
Inductive event : Type :=
| Registration (outcome : res RunId)
| Execution (c : callable_obj).

(** The world an invocation runs in, and the events so far. *)
Record state : Type := { world : World; trace : list event }.

(** The call of [create_flow_run_sync]. *)
Definition register (self : Flow) (parameters : list (string * pyobj))
  : io state RunId :=
  fun st =>
    let (r, w) := create_flow_run_sync self parameters (world st) in
    (r, {| world := w; trace := trace st ++ [Registration r] |}).

(** The run of a callable's own body. *)
Definition execute (c : callable_obj) (a : Args) : io state pyobj :=
  fun st =>
    let (r, w) := body c a (world st) in
    (r, {| world := w; trace := trace st ++ [Execution c] |}).

(** Calling [fn] with [*args, **kwargs]: the wrapper pydantic returns
    binds and coerces the arguments and calls the function it wraps with
    them. *)
Definition call (fn : attr) (a : Args) : io state pyobj :=
  match fn with
  | Validated c => a' <~ io_lift (coerce c a) ;; execute c a'
  | Plain (PyCallable c) => execute c a
  | _ => io_raise (TypeError "object is not callable")
  end.

(** [Flow._run] *)
Definition _run (self : Flow) (a : Args) : io state pyobj :=
  fn <~ io_lift (getattr self "fn") ;;
  result <~ call fn a ;;
  io_ret result.

(** The call of [self._run]: [_run] is a function of the class and no
    data descriptor, so an entry [_run] of the instance's [__dict__]
    comes before it and is what is called. *)
Definition call_run (self : Flow) (a : Args) : io state pyobj :=
  match pydict.get self "_run" with
  | Some own => call own a
  | None => _run self a
  end.

(** [Flow.__call__] *)
Definition __call__ (self : Flow) (a : Args) : io state PrefectFuture :=
  fn <~ io_lift (getattr self "fn") ;;
  parameters <~ io_lift (bind_partial fn a) ;;
  flow_run_id <~ register self parameters ;;
  result <~ call_run self a ;;
  io_ret {| run_id := flow_run_id; result := result |}.

(** ** The decorator *)

(** [**flow_init_kwargs] *)
Record flow_init_kwargs : Type := {
  kw_version : option string;
  kw_executor : pyobj;
  kw_description : option string;
  kw_tags : option (list string) }.

(** [flow(...)] gives a [Flow], or the function that will build one. *)
Inductive decorated : Type :=
| Built (r : res Flow)
| Deferred (k : pyobj -> res Flow).

Definition flow (_fn : pyobj) (name : option string) (kw : flow_init_kwargs)
  : decorated :=
  let build _fn :=
    __init__ name _fn (kw_version kw) (kw_executor kw) (kw_description kw)
      (kw_tags kw) in
  match _fn with
  | PyNone => Deferred build
  | _ => Built (build _fn)
  end.
End Flow.

(** The boundary [b] with another [file_hash]. *)
Definition with_file_hash {World RunId ParameterSchema : Type}
    (hash : string -> res string)
    (b : Boundary (World := World) (RunId := RunId)
           (ParameterSchema := ParameterSchema))
  : Boundary (World := World) (RunId := RunId)
      (ParameterSchema := ParameterSchema) :=
  {| cleandoc := cleandoc (Boundary := b);
     ValidatedFunction := ValidatedFunction (Boundary := b);
     file_hash := hash;
     parameter_schema := parameter_schema (Boundary := b);
     bind_partial := bind_partial (Boundary := b);
     coerce := coerce (Boundary := b);
     body := body (Boundary := b);
     create_flow_run_sync := create_flow_run_sync (Boundary := b) |}.
End flow.

(* ================================================================== *)
(** * Concrete inputs *)
(* ================================================================== *)

Module samples.
Import collections.
Open Scope string_scope.

(** ** Dictionaries *)

(** The classes of the mappings at hand: [dict] and two of its
    subclasses in [collections]. *)
Inductive dict_type : Type := dict_ | OrderedDict | defaultdict.

(** Mappings of these classes that hold integers: [dict(items)] and
    [OrderedDict(items)] store the pairs, [defaultdict(items)] raises
    since a list is no default factory, and an integer has neither
    [setdefault] nor item assignment. *)
Definition integers {KT : Type} `{Hashable KT} : Objects KT nat dict_type :=
  {| construct := fun typ items =>
       match typ with
       | dict_ | OrderedDict => Ok (pydict.of_items items)
       | defaultdict =>
           Raise (TypeError "first argument must be callable or None")
       end;
     leaf_walk := fun _ _ prefix _ _ =>
       match prefix with
       | [] => Raise (TypeError "'int' object does not support item assignment")
       | _ :: _ =>
           Raise (AttributeError "'int' object has no attribute 'setdefault'")
       end |}.

Definition nested_example : dict string nat dict_type :=
  [("a", Leaf 1);
   ("b", Dict dict_ [("c", Leaf 2); ("d", Dict dict_ [("e", Leaf 3)])]);
   ("f", Leaf 4)].

(** The same with an [OrderedDict] in it. *)
Definition mixed_example : dict string nat dict_type :=
  [("a", Leaf 1);
   ("b", Dict OrderedDict [("c", Leaf 2); ("d", Dict dict_ [("e", Leaf 3)])]);
   ("f", Leaf 4)].

Definition flat_example : flatdict string nat dict_type :=
  [(["a"; "x"], Leaf 1); (["b"], Leaf 2); (["a"; "y"], Leaf 3)].

(** A dictionary with dictionaries that hold no leaf. *)
Definition hollow_example : dict string nat dict_type :=
  [("a", Dict dict_ [("b", Dict dict_ [])]); ("c", Leaf 1);
   ("d", Dict dict_ [])].

(** [{'a': defaultdict(int, {'b': 1})}] *)
Definition defaultdict_example : dict string nat dict_type :=
  [("a", Dict defaultdict [("b", Leaf 1)])].

(** ** Objects of several kinds in a [Counter]

    Integers, strings and tuples, which are all hashable and have neither
    [setdefault] nor item assignment. *)
Inductive object : Type :=
| Int (n : nat)
| Str (s : string)
| Tuple (elts : list object).

Definition object_eq_dec : forall a b : object, {a = b} + {a <> b}.
Proof.
  fix IH 1. decide equality.
  - apply Nat.eq_dec.
  - apply string_dec.
  - apply (list_eq_dec IH).
Defined.

#[export] Instance Hashable_object : Hashable object := object_eq_dec.

Inductive counting_type : Type := builtin_dict | Counter.

(** [Counter(items)] counts the elements of [items], here the pairs
    [(key_tuple, value)]: each pair is a key of the result, at its first
    place, and the number of times it has come is its value.  A pair
    with a dict in it is not hashable. *)
Definition count_elements (items : flatdict object object counting_type)
  : res (flatdict object object counting_type) :=
  fold_left
    (fun counted elem =>
       counts <- counted ;;
       match snd elem with
       | Leaf x =>
           let pair := [Tuple (fst elem); x] in
           let seen :=
             match pydict.get counts pair with
             | Some (Leaf (Int n)) => n
             | _ => 0
             end in
           Ok (pydict.setitem counts pair (Leaf (Int (Datatypes.S seen))))
       | Dict _ _ => Raise (TypeError "unhashable type: 'dict'")
       end)
    items (Ok []).

Definition counted : Objects object object counting_type :=
  {| construct := fun typ items =>
       match typ with
       | builtin_dict => Ok (pydict.of_items items)
       | Counter => count_elements items
       end;
     leaf_walk := fun _ x prefix _ _ =>
       let name :=
         match x with
         | Int _ => "'int'"
         | Str _ => "'str'"
         | Tuple _ => "'tuple'"
         end in
       match prefix with
       | [] => Raise (TypeError (name ++ " object does not support item assignment"))
       | _ :: _ =>
           Raise (AttributeError (name ++ " object has no attribute 'setdefault'"))
       end |}.

(** [{'a': Counter({'b': 1})}] *)
Definition counter_example : dict object object counting_type :=
  [(Str "a", Dict Counter [(Str "b", Leaf (Int 1))])].

(** ** Objects and their types *)

Inductive pytype : Type := int | str | bool_.

Inductive pyvalue : Type :=
| VInt (z : Z)
| VStr (s : string)
| VBool (b : bool).

(** [bool] is a subclass of [int]. *)
Definition isinstance (o : pyvalue) (t : pytype) : bool :=
  match o, t with
  | VInt _, int => true
  | VStr _, str => true
  | VBool _, int => true
  | VBool _, bool_ => true
  | _, _ => false
  end.

Definition pytype_eq_dec (a b : pytype) : {a = b} + {a <> b}.
Proof. decide equality. Defined.

#[export] Instance Hashable_pytype : Hashable pytype := pytype_eq_dec.

Definition mixed_objects : list pyvalue :=
  [VStr "a"; VInt 1; VBool true; VStr "b"; VInt 2].

(** ** A remote store of variables *)

(** The service holds the variables in a table; a name it does not hold
    is reported as not found. *)
Definition table_read (name : string)
  : io (list (string * string)) (option variables.Variable_) :=
  fun table =>
    (Ok (option_map variables.Build_Variable_ (pydict.get table name)), table).

(** A service that cannot be reached. *)
Definition unreachable_read (name : string)
  : io (list (string * string)) (option variables.Variable_) :=
  fun table => (Raise (BoundaryError 503), table).

(** ** Callables and a boundary for flows *)

Definition greet : flow.callable_obj :=
  {| flow.code := 1;
     flow.truth := true;
     flow.__module__ := Some "flows";
     flow.__name__ := Some "greet";
     flow.__qualname__ := Some "greet";
     flow.__doc__ := Some "Say hello.";
     flow.inherited_doc := None;
     flow.__annotations__ := None;
     flow.__globals__ := Some (Some "flows.py");
     flow.__dict__ := [] |}.

(** [greet] after [greet.name = 'other'] and
    [greet.description = 'elsewhere']. *)
Definition labelled : flow.callable_obj :=
  {| flow.code := 1;
     flow.truth := true;
     flow.__module__ := Some "flows";
     flow.__name__ := Some "greet";
     flow.__qualname__ := Some "greet";
     flow.__doc__ := Some "Say hello.";
     flow.inherited_doc := None;
     flow.__annotations__ := None;
     flow.__globals__ := Some (Some "flows.py");
     flow.__dict__ :=
       [("name", flow.PyStr "other");
        ("description", flow.PyStr "elsewhere")] |}.

(** The world is the number of runs the service has registered; a run
    gets the next number.  A callable returns the number of its
    positional arguments. *)
Definition counting : flow.Boundary (World := nat) (RunId := nat)
    (ParameterSchema := list string) :=
  {| flow.cleandoc := fun doc => doc;
     flow.ValidatedFunction := fun _ => Ok tt;
     flow.file_hash := fun path => Ok ("hash of " ++ path);
     flow.parameter_schema := fun _ => Ok [];
     flow.bind_partial := fun _ a => Ok (flow.kwargs a);
     flow.coerce := fun _ a => Ok a;
     flow.body := fun _ a w =>
       (Ok (flow.PyInt (Z.of_nat (List.length (flow.args a)))), w);
     flow.create_flow_run_sync := fun _ _ w => (Ok w, Datatypes.S w) |}.

(** The same with a service that refuses every registration. *)
Definition refusing : flow.Boundary (World := nat) (RunId := nat)
    (ParameterSchema := list string) :=
  {| flow.cleandoc := fun doc => doc;
     flow.ValidatedFunction := fun _ => Ok tt;
     flow.file_hash := fun path => Ok ("hash of " ++ path);
     flow.parameter_schema := fun _ => Ok [];
     flow.bind_partial := fun _ a => Ok (flow.kwargs a);
     flow.coerce := fun _ a => Ok a;
     flow.body := fun _ a w =>
       (Ok (flow.PyInt (Z.of_nat (List.length (flow.args a)))), w);
     flow.create_flow_run_sync := fun _ _ w => (Raise (BoundaryError 503), w) |}.

(** [Flow(fn=greet, tags=['a', 'a', 'b'])] *)
Definition greet_flow : flow.Flow (ParameterSchema := list string) :=
  match
    flow.__init__ (boundary := counting) None (flow.PyCallable greet) None
      flow.PyNone None (Some ["a"; "a"; "b"])
  with
  | Ok self => self
  | Raise _ => []
  end.

Definition two_arguments : flow.Args :=
  {| flow.args := [flow.PyInt 1; flow.PyStr "x"]; flow.kwargs := [] |}.
(** A callable object that is false in a condition, one without a
    [__name__] (a [functools.partial]) and one without [__globals__] (a
    built-in function). *)
Definition falsy_callable : flow.callable_obj :=
  {| flow.code := 2;
     flow.truth := false;
     flow.__module__ := Some "flows";
     flow.__name__ := None;
     flow.__qualname__ := None;
     flow.__doc__ := None;
     flow.inherited_doc := None;
     flow.__annotations__ := None;
     flow.__globals__ := None;
     flow.__dict__ := [] |}.

Definition partial_object : flow.callable_obj :=
  {| flow.code := 3;
     flow.truth := true;
     flow.__module__ := None;
     flow.__name__ := None;
     flow.__qualname__ := None;
     flow.__doc__ := Some "partial(func, *args, **keywords)";
     flow.inherited_doc := None;
     flow.__annotations__ := None;
     flow.__globals__ := None;
     flow.__dict__ := [] |}.

Definition builtin_len : flow.callable_obj :=
  {| flow.code := 4;
     flow.truth := true;
     flow.__module__ := Some "builtins";
     flow.__name__ := Some "len";
     flow.__qualname__ := Some "len";
     flow.__doc__ := Some "Return the number of items in a container.";
     flow.inherited_doc := None;
     flow.__annotations__ := None;
     flow.__globals__ := None;
     flow.__dict__ := [] |}.

(** [counting] with a file that cannot be read. *)
Definition unreadable : flow.Boundary (World := nat) (RunId := nat)
    (ParameterSchema := list string) :=
  flow.with_file_hash (fun _ => Raise (BoundaryError 2)) counting.

(** A boundary whose callables take at most two positional arguments,
    no string in the first place, and do not return for a first argument
    of 0. *)
Definition fussy : flow.Boundary (World := nat) (RunId := nat)
    (ParameterSchema := list string) :=
  {| flow.cleandoc := fun doc => doc;
     flow.ValidatedFunction := fun _ => Ok tt;
     flow.file_hash := fun path => Ok ("hash of " ++ path);
     flow.parameter_schema := fun _ => Ok [];
     flow.bind_partial := fun _ a =>
       if (2 <? List.length (flow.args a))%nat
       then Raise (TypeError "too many positional arguments")
       else Ok (flow.kwargs a);
     flow.coerce := fun _ a =>
       match flow.args a with
       | flow.PyStr _ :: _ => Raise (ValueError "value is not a valid integer")
       | _ => Ok a
       end;
     flow.body := fun _ a w =>
       match flow.args a with
       | flow.PyInt 0 :: _ => (Raise (ValueError "division by zero"), w)
       | _ => (Ok (flow.PyInt (Z.of_nat (List.length (flow.args a)))), w)
       end;
     flow.create_flow_run_sync := fun _ _ w => (Ok w, Datatypes.S w) |}.

Definition three_arguments : flow.Args :=
  {| flow.args := [flow.PyInt 1; flow.PyInt 2; flow.PyInt 3];
     flow.kwargs := [] |}.

Definition string_first : flow.Args :=
  {| flow.args := [flow.PyStr "x"]; flow.kwargs := [] |}.

Definition zero_first : flow.Args :=
  {| flow.args := [flow.PyInt 0]; flow.kwargs := [] |}.

(** [counting] with a pydantic that takes functions only: a callable
    without a [__name__], as a [functools.partial] is, is refused when it
    is wrapped. *)
Definition strict : flow.Boundary (World := nat) (RunId := nat)
    (ParameterSchema := list string) :=
  {| flow.cleandoc := fun doc => doc;
     flow.ValidatedFunction := fun c =>
       match flow.__name__ c with
       | Some _ => Ok tt
       | None => Raise (TypeError "is not a module, class, method, or function.")
       end;
     flow.file_hash := fun path => Ok ("hash of " ++ path);
     flow.parameter_schema := fun _ => Ok [];
     flow.bind_partial := fun _ a => Ok (flow.kwargs a);
     flow.coerce := fun _ a => Ok a;
     flow.body := fun _ a w =>
       (Ok (flow.PyInt (Z.of_nat (List.length (flow.args a)))), w);
     flow.create_flow_run_sync := fun _ _ w => (Ok w, Datatypes.S w) |}.

(** [def double(x: int): return x * 2] *)
Definition double : flow.callable_obj :=
  {| flow.code := 5;
     flow.truth := true;
     flow.__module__ := Some "flows";
     flow.__name__ := Some "double";
     flow.__qualname__ := Some "double";
     flow.__doc__ := None;
     flow.inherited_doc := None;
     flow.__annotations__ := Some (flow.PyStr "{'x': int}");
     flow.__globals__ := Some (Some "flows.py");
     flow.__dict__ := [] |}.

(** A boundary in which every callable is [double]: the [*] of Python
    doubles an integer and repeats a string, and pydantic turns the
    string ['2'] into the integer it spells for a parameter annotated
    [int] and refuses any other string. *)
Definition coercing : flow.Boundary (World := nat) (RunId := nat)
    (ParameterSchema := list string) :=
  {| flow.cleandoc := fun doc => doc;
     flow.ValidatedFunction := fun _ => Ok tt;
     flow.file_hash := fun path => Ok ("hash of " ++ path);
     flow.parameter_schema := fun _ => Ok ["x"];
     flow.bind_partial := fun _ a => Ok (flow.kwargs a);
     flow.coerce := fun _ a =>
       match flow.args a with
       | flow.PyStr s :: rest =>
           if s =? "2"
           then Ok {| flow.args := flow.PyInt 2 :: rest;
                      flow.kwargs := flow.kwargs a |}
           else Raise (ValueError "value is not a valid integer")
       | _ => Ok a
       end;
     flow.body := fun _ a w =>
       match flow.args a with
       | [flow.PyInt z] => (Ok (flow.PyInt (z * 2)), w)
       | [flow.PyStr s] => (Ok (flow.PyStr (s ++ s)), w)
       | _ => (Raise (TypeError "unsupported operand or missing argument"), w)
       end;
     flow.create_flow_run_sync := fun _ _ w => (Ok w, Datatypes.S w) |}.

Definition string_two : flow.Args :=
  {| flow.args := [flow.PyStr "2"]; flow.kwargs := [] |}.

Definition int_two : flow.Args :=
  {| flow.args := [flow.PyInt 2]; flow.kwargs := [] |}.

(** [Flow(fn=double)] *)
Definition double_flow : flow.Flow (ParameterSchema := list string) :=
  match
    flow.__init__ (boundary := coercing) None (flow.PyCallable double) None
      flow.PyNone None None
  with
  | Ok self => self
  | Raise _ => []
  end.

(** [greet] after [greet.fn = len]: a callable that carries an attribute
    [fn] of its own. *)
Definition carrying_fn : flow.callable_obj :=
  {| flow.code := 1;
     flow.truth := true;
     flow.__module__ := Some "flows";
     flow.__name__ := Some "greet";
     flow.__qualname__ := Some "greet";
     flow.__doc__ := Some "Say hello.";
     flow.inherited_doc := None;
     flow.__annotations__ := None;
     flow.__globals__ := Some (Some "flows.py");
     flow.__dict__ := [("fn", flow.PyCallable builtin_len)] |}.

(** [greet] after [greet._run = 5]. *)
Definition carrying_run : flow.callable_obj :=
  {| flow.code := 1;
     flow.truth := true;
     flow.__module__ := Some "flows";
     flow.__name__ := Some "greet";
     flow.__qualname__ := Some "greet";
     flow.__doc__ := Some "Say hello.";
     flow.inherited_doc := None;
     flow.__annotations__ := None;
     flow.__globals__ := Some (Some "flows.py");
     flow.__dict__ := [("_run", flow.PyInt 5)] |}.

(** A method without documentation of its own that overrides a
    documented one. *)
Definition overriding_method : flow.callable_obj :=
  {| flow.code := 6;
     flow.truth := true;
     flow.__module__ := Some "flows";
     flow.__name__ := Some "run";
     flow.__qualname__ := Some "Job.run";
     flow.__doc__ := None;
     flow.inherited_doc := Some "Run the job.";
     flow.__annotations__ := None;
     flow.__globals__ := Some (Some "flows.py");
     flow.__dict__ := [] |}.
End samples.

(* ================================================================== *)
(** * Facts about the built-in [dict] *)
(* ================================================================== *)

Module pydict_facts.
Import pydict.
Section DictFacts.
Context {A B : Type} `{Hashable A}.
Implicit Types (d acc items : list (A * B)) (k : A) (v : B).

Lemma keys_app d1 d2 : keys (d1 ++ d2) = keys d1 ++ keys d2.
Proof. apply map_app. Qed.

Lemma get_None d k : ~ In k (keys d) -> get d k = None.
Proof.
  induction d as [|[k' v'] d IH]; simpl; intros Hk; [reflexivity|].
  destruct (key_eq_dec k k') as [->|_]; [tauto|].
  apply IH. tauto.
Qed.

Lemma get_Some_split d k v :
  get d k = Some v ->
  exists d1 d2, d = d1 ++ (k, v) :: d2 /\ ~ In k (keys d1).
Proof.
  induction d as [|[k' v'] d IH]; simpl; [discriminate|].
  destruct (key_eq_dec k k') as [->|Hne]; intros Hg.
  - inversion Hg; subst. exists [], d. split; [reflexivity|]. simpl; tauto.
  - destruct (IH Hg) as (d1 & d2 & -> & Hk).
    exists ((k', v') :: d1), d2. split; [reflexivity|].
    simpl. intros [E|E]; [congruence|tauto].
Qed.

Lemma get_middle d1 d2 k v :
  ~ In k (keys d1) -> get (d1 ++ (k, v) :: d2) k = Some v.
Proof.
  induction d1 as [|[k' v'] d1 IH]; simpl; intros Hk.
  - destruct (key_eq_dec k k); [reflexivity|congruence].
  - destruct (key_eq_dec k k') as [->|_]; [tauto|]. apply IH. tauto.
Qed.

Lemma setitem_middle d1 d2 k v v' :
  ~ In k (keys d1) ->
  setitem (d1 ++ (k, v) :: d2) k v' = d1 ++ (k, v') :: d2.
Proof.
  induction d1 as [|[k' w] d1 IH]; simpl; intros Hk.
  - destruct (key_eq_dec k k); [reflexivity|congruence].
  - destruct (key_eq_dec k k') as [->|_]; [tauto|].
    rewrite IH by tauto. reflexivity.
Qed.

Lemma setitem_fresh d k v : ~ In k (keys d) -> setitem d k v = d ++ [(k, v)].
Proof.
  induction d as [|[k' w] d IH]; simpl; intros Hk; [reflexivity|].
  destruct (key_eq_dec k k') as [->|_]; [tauto|].
  rewrite IH by tauto. reflexivity.
Qed.

Lemma of_items_from acc items :
  NoDup (keys (acc ++ items)) ->
  fold_left (fun d kv => setitem d (fst kv) (snd kv)) items acc = acc ++ items.
Proof.
  revert acc. induction items as [|[k v] items IH]; intros acc Hnd; simpl.
  - now rewrite app_nil_r.
  - assert (Hk : ~ In k (keys acc)).
    { rewrite keys_app in Hnd. simpl in Hnd.
      apply NoDup_remove_2 in Hnd. intros Hin. apply Hnd.
      apply in_or_app. now left. }
    rewrite setitem_fresh by exact Hk.
    rewrite IH; rewrite <- app_assoc; simpl; [reflexivity | exact Hnd].
Qed.

(** [dict(items)] keeps a list of pairs with distinct keys as it is. *)
Lemma of_items_NoDup items : NoDup (keys items) -> of_items items = items.
Proof. intros Hnd. unfold of_items. now rewrite of_items_from. Qed.

Lemma get_setitem d k v k' :
  get (setitem d k v) k' = if key_eq_dec k' k then Some v else get d k'.
Proof.
  induction d as [|[k0 v0] d IH]; simpl.
  - destruct (key_eq_dec k' k); reflexivity.
  - destruct (key_eq_dec k k0) as [->|Hne]; simpl.
    + destruct (key_eq_dec k' k0); reflexivity.
    + rewrite IH. destruct (key_eq_dec k' k0) as [->|_]; [|reflexivity].
      destruct (key_eq_dec k0 k); [congruence | reflexivity].
Qed.

Lemma keys_setitem d k v k' :
  In k' (keys (setitem d k v)) <-> In k' (keys d) \/ k' = k.
Proof.
  induction d as [|[k0 v0] d IH]; simpl.
  - intuition.
  - destruct (key_eq_dec k k0) as [->|Hne]; simpl; [intuition|].
    rewrite IH. intuition.
Qed.
End DictFacts.
End pydict_facts.

(* ================================================================== *)
(** * Flattening and unflattening *)
(* ================================================================== *)

Module flatten_facts.
Import pydict pydict_facts collections.

Section FlattenFacts.
Context {KT VT DT : Type} `{Hashable KT} {objects : Objects KT VT DT}.
Implicit Types (d sub rest r : dict KT VT DT) (p q parent : tuple KT)
  (v : value KT VT DT) (k : KT) (fd items : flatdict KT VT DT) (typ t : DT).

(** *** The defining equations, with the loops as list functions *)

Lemma flat_items_Dict typ d parent :
  flat_items (Dict typ d) parent =
  (items <- gather parent d ;; construct typ items).
Proof.
  cbn [flat_items]. f_equal. unfold gather.
  induction d as [|[k v] d IH]; [reflexivity|].
  cbn [fold_right fst snd]. now rewrite IH.
Qed.

Lemma gather_cons parent k v d :
  gather parent ((k, v) :: d) =
  (added <- flat_items v (parent ++ [k]) ;;
   items <- gather parent d ;;
   Ok (added ++ items)).
Proof. reflexivity. Qed.

Lemma paths_Dict t d : paths (Dict t d) = leaves d.
Proof.
  unfold leaves. cbn [paths]. induction d as [|[k v] d IH]; [reflexivity|].
  cbn [flat_map fst snd]. now rewrite IH.
Qed.

Lemma leaves_cons k v d :
  leaves ((k, v) :: d) = map (under k) (paths v) ++ leaves d.
Proof. reflexivity. Qed.

Lemma leaves_cons_leaf k x d :
  leaves ((k, Leaf x) :: d) = ([k], Leaf x) :: leaves d.
Proof. reflexivity. Qed.

Lemma leaves_cons_dict k t sub d :
  leaves ((k, Dict t sub) :: d) = map (under k) (leaves sub) ++ leaves d.
Proof. now rewrite leaves_cons, paths_Dict. Qed.

Lemma leaves_app d1 d2 : leaves (d1 ++ d2) = leaves d1 ++ leaves d2.
Proof. apply flat_map_app. Qed.

Lemma retype_value_Dict typ t d :
  retype_value typ (Dict t d) = Dict typ (retype typ d).
Proof.
  unfold retype. cbn [retype_value]. f_equal.
  induction d as [|[k v] d IH]; [reflexivity|].
  cbn [map fst snd]. now rewrite IH.
Qed.

Lemma retype_cons_leaf typ k x d :
  retype typ ((k, Leaf x) :: d) = (k, Leaf x) :: retype typ d.
Proof. reflexivity. Qed.

Lemma retype_cons_dict typ k t sub d :
  retype typ ((k, Dict t sub) :: d) =
  (k, Dict typ (retype typ sub)) :: retype typ d.
Proof.
  unfold retype at 1. cbn [map fst snd]. now rewrite retype_value_Dict.
Qed.

Lemma below_under parent k items :
  map (below (parent ++ [k])) items = map (below parent) (map (under k) items).
Proof.
  rewrite map_map. apply map_ext. intros [p v]. unfold below, under; simpl.
  now rewrite <- app_assoc.
Qed.

Lemma below_nil items : map (below []) items = items.
Proof.
  rewrite <- (map_id items) at 2. apply map_ext. now intros [p v].
Qed.

(** *** The keys of [leaves] *)

Lemma leaves_keys_head d p :
  In p (keys (leaves d)) -> exists k q, p = k :: q /\ In k (keys d).
Proof.
  unfold leaves, keys. rewrite in_map_iff.
  intros ([p' v] & <- & Hin). apply in_flat_map in Hin.
  destruct Hin as ([k w] & Hkw & Hin). simpl in Hin.
  apply in_map_iff in Hin. destruct Hin as ([q x] & E & _).
  inversion E; subst. exists k, q. split; [reflexivity|].
  apply in_map_iff. now exists (k, w).
Qed.

Lemma leaves_nonempty_key d p v : In (p, v) (leaves d) -> p <> [].
Proof.
  intros Hin. destruct (leaves_keys_head d p) as (k & q & -> & _).
  - apply in_map_iff. now exists (p, v).
  - discriminate.
Qed.

Lemma keys_under k items : keys (map (under k) items) = map (cons k) (keys items).
Proof. unfold keys. rewrite !map_map. reflexivity. Qed.

Lemma leaves_NoDup d : well_formed d -> NoDup (keys (leaves d)).
Proof.
  induction 1 as [|k x rest Hk _ IH|k t sub rest Hk _ IHsub _ IH].
  - constructor.
  - rewrite leaves_cons_leaf. simpl. constructor; [|exact IH].
    intros Hin. apply leaves_keys_head in Hin.
    destruct Hin as (k' & q & E & Hin). inversion E; subst. tauto.
  - rewrite leaves_cons_dict, keys_app, keys_under.
    apply NoDup_app; [| exact IH |].
    + apply Injective_map_NoDup; [|exact IHsub].
      intros a b E. now inversion E.
    + intros p Hp Hin. apply in_map_iff in Hp. destruct Hp as (q & <- & _).
      apply leaves_keys_head in Hin.
      destruct Hin as (k' & q' & E & Hin). inversion E; subst. tauto.
Qed.

Lemma keys_below parent items :
  keys (map (below parent) items) = map (app parent) (keys items).
Proof. unfold keys. rewrite !map_map. reflexivity. Qed.

Lemma below_leaves_NoDup parent d :
  well_formed d -> NoDup (keys (map (below parent) (leaves d))).
Proof.
  intros Hwf. rewrite keys_below. apply Injective_map_NoDup.
  - intros a b E. now apply app_inv_head in E.
  - now apply leaves_NoDup.
Qed.

(** *** Classes *)

Lemma all_classes_app (P : DT -> Prop) d1 d2 :
  all_classes P (d1 ++ d2) <-> all_classes P d1 /\ all_classes P d2.
Proof.
  induction d1 as [|[k v] d1 IH]; simpl.
  - split; [intros Hall; split; [constructor | exact Hall] | tauto].
  - split.
    + intros Hall. inversion Hall; subst;
        match goal with Hr : all_classes _ (_ ++ _) |- _ => apply IH in Hr end;
        split; try tauto; constructor; tauto.
    + intros [H1 H2]. inversion H1; subst; constructor; auto; apply IH; tauto.
Qed.

Lemma all_classes_impl (P Q : DT -> Prop) d :
  (forall t, P t -> Q t) -> all_classes P d -> all_classes Q d.
Proof.
  intros HPQ. induction 1; constructor; auto.
Qed.

(** A dictionary whose nested dictionaries are all of one class that
    builds from pairs. *)
Lemma uniform_plain typ d : builds_from_pairs typ -> uniform typ d -> plain d.
Proof.
  intros Htyp. apply all_classes_impl. now intros t <-.
Qed.

Lemma retype_uniform typ d : uniform typ d -> retype typ d = d.
Proof.
  unfold uniform.
  induction 1 as [|k x rest _ IH|k t sub rest <- _ IHsub _ IH].
  - reflexivity.
  - now rewrite retype_cons_leaf, IH.
  - now rewrite retype_cons_dict, IHsub, IH.
Qed.

(** *** [dict_to_flatdict] lists the leaves with their paths *)

Lemma gather_leaves d :
  well_formed d -> plain d ->
  forall parent, gather parent d = Ok (map (below parent) (leaves d)).
Proof.
  unfold plain.
  induction 1 as [|k x rest Hk _ IH|k t sub rest Hk Hsub IHsub Hrest IH];
    intros Hplain parent.
  - reflexivity.
  - inversion Hplain; subst.
    rewrite gather_cons, IH by assumption. reflexivity.
  - inversion Hplain as [| |k0 t0 sub0 rest0 Ht Hps Hpr]; subst.
    rewrite gather_cons, flat_items_Dict, IHsub, IH by assumption.
    cbn [bind]. rewrite Ht, of_items_NoDup by now apply below_leaves_NoDup.
    cbn [bind]. now rewrite leaves_cons_dict, map_app, below_under.
Qed.

Lemma flat_items_leaves typ d :
  builds_from_pairs typ -> well_formed d -> plain d ->
  forall parent,
    flat_items (Dict typ d) parent = Ok (map (below parent) (leaves d)).
Proof.
  intros Htyp Hwf Hplain parent.
  rewrite flat_items_Dict, gather_leaves by assumption. cbn [bind].
  now rewrite Htyp, of_items_NoDup by now apply below_leaves_NoDup.
Qed.

Lemma dict_to_flatdict_leaves typ d :
  builds_from_pairs typ -> well_formed d -> plain d ->
  dict_to_flatdict typ d None = Ok (leaves d).
Proof.
  intros Htyp Hwf Hplain. unfold dict_to_flatdict.
  now rewrite flat_items_leaves, below_nil.
Qed.

(** *** One assignment of [flatdict_to_dict] *)

Lemma split_last_None p : split_last p = None -> p = [].
Proof.
  destruct p as [|k p]; [reflexivity|]. simpl.
  destruct (split_last p) as [[pre l]|]; discriminate.
Qed.

Lemma assign_single typ r k v : assign typ r [k] v = Ok (setitem r k v).
Proof. reflexivity. Qed.

(** What [setdefault] returns. *)
Lemma assign_cons typ r k p v t child :
  p <> [] ->
  match get r k with Some o => o | None => Dict typ [] end = Dict t child ->
  assign typ r (k :: p) v =
  (c <- assign typ child p v ;; Ok (setitem r k (Dict t c))).
Proof.
  intros Hp Hstored. unfold assign. simpl split_last.
  destruct (split_last p) as [[pre l]|] eqn:E.
  - cbn [descend]. rewrite Hstored. reflexivity.
  - now apply split_last_None in E.
Qed.

(** The walk goes on in a stored object that is no dict. *)
Lemma assign_cons_leaf typ r k p v x pre last :
  split_last p = Some (pre, last) -> get r k = Some (Leaf x) ->
  assign typ r (k :: p) v =
  (x' <- leaf_walk typ x pre last v ;; Ok (setitem r k (Leaf x'))).
Proof.
  intros Hp Hstored. unfold assign. simpl split_last. rewrite Hp.
  cbn [descend]. rewrite Hstored. reflexivity.
Qed.

Lemma loop_cons typ p v fd r :
  flatdict_to_dict_loop typ ((p, v) :: fd) r =
  (r' <- assign typ r p v ;; flatdict_to_dict_loop typ fd r').
Proof. reflexivity. Qed.

Lemma loop_app typ fd1 fd2 r :
  flatdict_to_dict_loop typ (fd1 ++ fd2) r =
  (r' <- flatdict_to_dict_loop typ fd1 r ;; flatdict_to_dict_loop typ fd2 r').
Proof.
  revert r. induction fd1 as [|[p v] fd1 IH]; intros r; [reflexivity|].
  simpl. destruct (assign typ r p v); simpl; [apply IH | reflexivity].
Qed.

(** Entries that start with the key stored last go into its dictionary. *)
Lemma loop_under typ items :
  (forall p v, In (p, v) items -> p <> []) ->
  forall r k t child, ~ In k (keys r) ->
  flatdict_to_dict_loop typ (map (under k) items) (r ++ [(k, Dict t child)]) =
  (c <- flatdict_to_dict_loop typ items child ;; Ok (r ++ [(k, Dict t c)])).
Proof.
  induction items as [|[p v] items IH]; intros Hne r k t child Hk.
  - reflexivity.
  - simpl map. unfold under at 1. cbn [fst snd].
    rewrite !loop_cons.
    rewrite (@assign_cons typ _ k p v t child).
    + destruct (assign typ child p v) as [c|e]; simpl; [|reflexivity].
      rewrite setitem_middle by exact Hk.
      apply IH; [|exact Hk]. intros q w Hin. apply (Hne q w). now right.
    + apply (Hne p v). now left.
    + now rewrite get_middle.
Qed.

Lemma leaves_not_empty d : no_empty_dict d -> d <> [] -> leaves d <> [].
Proof.
  induction 1 as [|k x rest _ _|k t sub rest Hsub _ IHsub _ _]; intros Hd.
  - congruence.
  - rewrite leaves_cons_leaf. discriminate.
  - rewrite leaves_cons_dict. specialize (IHsub Hsub).
    destruct (leaves sub); [congruence | discriminate].
Qed.

(** *** Unflattening the leaves of a dictionary rebuilds it *)

Lemma unflatten_leaves typ d :
  well_formed d -> no_empty_dict d ->
  forall r, (forall k, In k (keys d) -> ~ In k (keys r)) ->
  flatdict_to_dict_loop typ (leaves d) r = Ok (r ++ retype typ d).
Proof.
  induction 1 as [|k x rest Hk _ IH|k t sub rest Hk Hsub IHsub _ IH];
    intros Hne r Hfresh.
  - simpl. now rewrite app_nil_r.
  - inversion Hne; subst.
    rewrite leaves_cons_leaf, loop_cons.
    rewrite assign_single, setitem_fresh by (apply Hfresh; now left).
    cbn [bind]. rewrite IH; [now rewrite retype_cons_leaf, <- app_assoc | assumption |].
    intros k' Hin. rewrite keys_app. simpl. intros Hin'.
    apply in_app_or in Hin'. destruct Hin' as [Hin'|[->|[]]].
    + apply (Hfresh k'); [now right | exact Hin'].
    + tauto.
  - inversion Hne as [| |k0 t0 sub0 rest0 Hsub_ne Hne_sub Hne_rest]; subst.
    rewrite leaves_cons_dict, loop_app.
    assert (Hkr : ~ In k (keys r)) by (apply Hfresh; now left).
    specialize (IHsub Hne_sub [] (fun _ _ Hin => Hin)).
    destruct (leaves sub) as [|[p v] items] eqn:Eleaves.
    { now apply leaves_not_empty in Eleaves. }
    assert (Hnonempty : forall q w, In (q, w) ((p, v) :: items) -> q <> []).
    { intros q w Hin. rewrite <- Eleaves in Hin.
      eapply leaves_nonempty_key; eassumption. }
    simpl map. unfold under at 1. cbn [fst snd].
    rewrite loop_cons in IHsub |- *.
    rewrite (@assign_cons typ r k p v typ []);
      [| apply (Hnonempty p v); now left | now rewrite get_None].
    destruct (assign typ [] p v) as [c|e]; cbn [bind] in IHsub |- *;
      [|discriminate].
    rewrite setitem_fresh by exact Hkr.
    rewrite loop_under;
      [| intros q w Hin; apply (Hnonempty q w); now right | exact Hkr].
    rewrite IHsub. cbn [bind app].
    rewrite IH; [now rewrite retype_cons_dict, <- app_assoc | assumption |].
    intros k' Hin. rewrite keys_app. simpl. intros Hin'.
    apply in_app_or in Hin'. destruct Hin' as [Hin'|[->|[]]].
    + apply (Hfresh k'); [now right | exact Hin'].
    + tauto.
Qed.

(** *** The two predicates and concatenation *)

Lemma wf_app d1 d2 :
  well_formed (d1 ++ d2) <->
  well_formed d1 /\ well_formed d2 /\
  (forall k, In k (keys d1) -> ~ In k (keys d2)).
Proof.
  induction d1 as [|[k v] d1 IH]; simpl.
  - split; [intros Hwf; repeat split; [constructor | exact Hwf | tauto] | tauto].
  - split.
    + intros Hwf.
      assert (Hparts : ~ In k (keys (d1 ++ d2)) /\ well_formed (d1 ++ d2))
        by (inversion Hwf; subst; tauto).
      destruct Hparts as [Hk Hrest]. rewrite keys_app in Hk.
      apply IH in Hrest. destruct Hrest as (Hw1 & Hw2 & Hdis).
      assert (Hk1 : ~ In k (keys d1)) by (intros E; apply Hk, in_or_app; tauto).
      assert (Hk2 : ~ In k (keys d2)) by (intros E; apply Hk, in_or_app; tauto).
      repeat split.
      * inversion Hwf; subst; constructor; assumption.
      * exact Hw2.
      * intros k' [<-|Hin]; [exact Hk2 | now apply Hdis].
    + intros (Hw1 & Hw2 & Hdis).
      assert (Hrest : well_formed (d1 ++ d2)).
      { apply IH. inversion Hw1; subst; repeat split; auto. }
      assert (Hk : ~ In k (keys (d1 ++ d2))).
      { rewrite keys_app. intros E. apply in_app_or in E.
        destruct E as [E|E]; [inversion Hw1; subst; tauto|].
        apply (Hdis k); [now left | exact E]. }
      inversion Hw1; subst; constructor; assumption.
Qed.

Lemma ne_app d1 d2 :
  no_empty_dict (d1 ++ d2) <-> no_empty_dict d1 /\ no_empty_dict d2.
Proof.
  induction d1 as [|[k v] d1 IH]; simpl.
  - split; [intros Hne; split; [constructor | exact Hne] | tauto].
  - split.
    + intros Hne. inversion Hne; subst;
        match goal with Hr : no_empty_dict (_ ++ _) |- _ => apply IH in Hr end;
        split; try tauto; constructor; tauto.
    + intros [Hn1 Hn2]. inversion Hn1; subst; constructor; auto; apply IH; tauto.
Qed.

Lemma get_None_keys d k : get d k = None -> ~ In k (keys d).
Proof.
  induction d as [|[k' v] d IH]; simpl; [tauto|].
  destruct (key_eq_dec k k') as [->|Hne]; [discriminate|].
  intros Hg [E|E]; [congruence | now apply IH].
Qed.

(** A stored entry shows in the flat keys, whatever it holds. *)
Lemma leaves_key_of_entry d1 d2 k v :
  no_empty_dict (d1 ++ (k, v) :: d2) ->
  exists q, In (k :: q) (keys (leaves (d1 ++ (k, v) :: d2))).
Proof.
  intros Hne. apply ne_app in Hne. destruct Hne as [_ Hne].
  assert (Hhere : exists q, In (k :: q) (keys (map (under k) (paths v)))).
  { destruct v as [x|t sub].
    - exists []. simpl. now left.
    - inversion Hne as [| |k0 t0 sub0 rest0 Hsub Hne_sub _]; subst.
      rewrite paths_Dict.
      destruct (leaves sub) as [|[q w] items] eqn:E.
      + now apply leaves_not_empty in E.
      + exists q. simpl. now left. }
  destruct Hhere as [q Hq]. exists q.
  rewrite leaves_app, leaves_cons, !keys_app.
  apply in_or_app. right. apply in_or_app. now left.
Qed.

(** *** Assigning a key that is apart from the keys already there *)

Lemma assign_apart typ p :
  p <> [] ->
  forall r x,
  well_formed r -> no_empty_dict r -> apart p (keys (leaves r)) ->
  exists r',
    assign typ r p (Leaf x) = Ok r' /\ well_formed r' /\ no_empty_dict r' /\
    r' <> [] /\ (uniform typ r -> uniform typ r') /\
    Permutation (leaves r') (leaves r ++ [(p, Leaf x)]).
Proof.
  induction p as [|k p IH]; intros Hp r x Hwf Hne Hapart; [congruence|].
  destruct p as [|k' p'].
  - (* the last key: it is new in [r] *)
    assert (Hk : ~ In k (keys r)).
    { intros Hin. apply in_map_iff in Hin. destruct Hin as ([k0 w] & E & Hin).
      simpl in E; subst k0. apply in_split in Hin.
      destruct Hin as (d1 & d2 & ->).
      destruct (leaves_key_of_entry _ _ _ _ Hne) as [q Hq].
      destruct (Hapart _ Hq) as [Hcont _]. now apply (Hcont q). }
    exists (r ++ [(k, Leaf x)]). rewrite assign_single, setitem_fresh by exact Hk.
    split; [reflexivity|]. split; [|split; [|split; [|split]]].
    + apply wf_app. repeat split; [exact Hwf | repeat constructor; tauto |].
      intros k0 Hin [<-|[]]. tauto.
    + apply ne_app. split; [exact Hne | repeat constructor].
    + now destruct r.
    + intros Hun. apply all_classes_app. split; [exact Hun | repeat constructor].
    + rewrite leaves_app. apply Permutation_refl.
  - set (rest := k' :: p') in *.
    assert (Hrest : rest <> []) by discriminate.
    destruct (get r k) as [[y|t sub]|] eqn:Hget.
    + (* a leaf is stored: its key is continued by [k :: rest] *)
      exfalso. apply get_Some_split in Hget.
      destruct Hget as (d1 & d2 & -> & _).
      destruct (Hapart [k]) as [_ Hcont].
      * rewrite leaves_app, leaves_cons_leaf, keys_app.
        apply in_or_app. right. now left.
      * now apply (Hcont rest).
    + (* a dictionary is stored: the assignment goes on inside it *)
      apply get_Some_split in Hget. destruct Hget as (d1 & d2 & -> & Hk1).
      pose proof Hwf as Hwf'. apply wf_app in Hwf'.
      destruct Hwf' as (Hw1 & Hw2 & Hdis).
      pose proof Hne as Hne'. apply ne_app in Hne'. destruct Hne' as [Hn1 Hn2].
      inversion Hw2 as [| |k0 t0 sub0 rest0 Hk2 Hwsub Hwd2]; subst.
      inversion Hn2 as [| |k0 t0 sub0 rest0 Hsub Hnsub Hnd2]; subst.
      destruct (IH Hrest sub x Hwsub Hnsub)
        as (c & Hc & Hwc & Hnc & Hcne & Hcun & Hperm).
      { intros q Hq.
        destruct (Hapart (k :: q)) as [H1 H2].
        - rewrite leaves_app, leaves_cons_dict, !keys_app, keys_under.
          apply in_or_app. right. apply in_or_app. left. now apply in_map.
        - split; intros s E; [apply (H1 s) | apply (H2 s)];
            cbn [app]; f_equal; exact E. }
      exists (d1 ++ (k, Dict t c) :: d2).
      rewrite (@assign_cons typ _ k rest (Leaf x) t sub Hrest)
        by (now rewrite get_middle).
      rewrite Hc. cbn [bind]. rewrite setitem_middle by exact Hk1.
      split; [reflexivity|]. split; [|split; [|split; [|split]]].
      * apply wf_app. repeat split; [exact Hw1 | now constructor | exact Hdis].
      * apply ne_app. split; [exact Hn1 | now constructor].
      * now destruct d1.
      * intros Hun. apply all_classes_app in Hun. destruct Hun as [Hu1 Hu2].
        apply all_classes_app. split; [exact Hu1|].
        inversion Hu2 as [| |k0 t0 sub0 rest0 Ht Husub Hud2]; subst.
        constructor; [reflexivity | now apply Hcun | exact Hud2].
      * rewrite !leaves_app, !leaves_cons_dict.
        rewrite (Permutation_map (under k) Hperm), map_app.
        rewrite <- !app_assoc. do 2 apply Permutation_app_head.
        apply Permutation_app_comm.
    + (* nothing is stored: [setdefault] stores a new dictionary *)
      apply get_None_keys in Hget.
      destruct (IH Hrest [] x) as (c & Hc & Hwc & Hnc & Hcne & Hcun & Hperm);
        [constructor | constructor | intros q [] |].
      exists (r ++ [(k, Dict typ c)]).
      rewrite (@assign_cons typ _ k rest (Leaf x) typ [] Hrest)
        by (now rewrite get_None).
      rewrite Hc. cbn [bind]. rewrite setitem_fresh by exact Hget.
      split; [reflexivity|]. split; [|split; [|split; [|split]]].
      * apply wf_app. repeat split;
          [exact Hwf | constructor; [tauto|assumption|constructor] |].
        intros k0 Hin [<-|[]]. tauto.
      * apply ne_app. split;
          [exact Hne | constructor; [assumption|assumption|constructor]].
      * now destruct r.
      * intros Hun. apply all_classes_app. split; [exact Hun|].
        constructor; [reflexivity | apply Hcun; constructor | constructor].
      * rewrite leaves_app, leaves_cons_dict. simpl (leaves []).
        rewrite app_nil_r. apply Permutation_app_head.
        now rewrite (Permutation_map (under k) Hperm).
Qed.

(** *** The loop of [flatdict_to_dict] over a prefix-free flat dictionary *)

Lemma unflatten_prefix_free typ fd :
  forall r,
  well_formed r -> no_empty_dict r -> uniform typ r ->
  (forall p v, In (p, v) fd -> p <> [] /\ is_leaf v) ->
  NoDup (keys fd) ->
  prefix_free (keys (leaves r) ++ keys fd) ->
  (forall p, In p (keys fd) -> ~ In p (keys (leaves r))) ->
  exists d,
    flatdict_to_dict_loop typ fd r = Ok d /\ well_formed d /\
    no_empty_dict d /\ uniform typ d /\
    Permutation (leaves d) (leaves r ++ fd).
Proof.
  induction fd as [|[p v] fd IH]; intros r Hwf Hne Hun Hshape Hnd Hfree Hnew.
  - exists r. rewrite app_nil_r. now repeat split.
  - destruct (Hshape p v (or_introl eq_refl)) as [Hp Hleaf].
    destruct v as [x|t sub]; [clear Hleaf | contradiction].
    simpl in Hnd. apply NoDup_cons_iff in Hnd. destruct Hnd as [Hp_fd Hnd].
    assert (Hp_r : ~ In p (keys (leaves r))) by (apply Hnew; now left).
    assert (Hapart : apart p (keys (leaves r))).
    { intros q Hq. split; intros s E.
      - apply Hp_r. rewrite (Hfree p q); [exact Hq | | | now exists s].
        + apply in_or_app. right. now left.
        + apply in_or_app. now left.
      - apply Hp_r. rewrite <- (Hfree q p); [exact Hq | | | now exists s].
        + apply in_or_app. now left.
        + apply in_or_app. right. now left. }
    destruct (@assign_apart typ p Hp r x Hwf Hne Hapart)
      as (r' & Hassign & Hwf' & Hne' & _ & Hun' & Hperm).
    assert (Hkeys : forall q,
      In q (keys (leaves r')) <-> In q (keys (leaves r)) \/ q = p).
    { intros q. unfold keys.
      rewrite (Permutation_in' (eq_refl q) (Permutation_map fst Hperm)).
      rewrite map_app, in_app_iff. simpl. intuition. }
    destruct (IH r' Hwf' Hne' (Hun' Hun)) as (d & Hloop & Hwd & Hnd' & Hud & Hpd).
    + intros q w Hin. apply (Hshape q w). now right.
    + exact Hnd.
    + intros q1 q2 H1 H2 Hcont. apply Hfree; [| | exact Hcont].
      * apply in_app_or in H1. apply in_or_app.
        destruct H1 as [H1|H1]; [apply Hkeys in H1 | right; now right].
        destruct H1 as [H1| ->]; [now left | right; now left].
      * apply in_app_or in H2. apply in_or_app.
        destruct H2 as [H2|H2]; [apply Hkeys in H2 | right; now right].
        destruct H2 as [H2| ->]; [now left | right; now left].
    + intros q Hq Hin. apply Hkeys in Hin. destruct Hin as [Hin| ->].
      * apply (Hnew q); [now right | exact Hin].
      * contradiction.
    + exists d. rewrite loop_cons, Hassign. cbn [bind].
      repeat split; try assumption.
      rewrite Hpd, Hperm, <- app_assoc. reflexivity.
Qed.

(** ** The round-trip laws *)

(** C1, amended: for every nested mapping of hashable keys and
    non-mapping leaves in which no nested mapping is empty and which,
    as every mapping nested in it, is of a class that builds a mapping
    from a list of pairs as [dict] does, [dict_to_flatdict] returns a
    flat mapping from which [flatdict_to_dict] rebuilds the original:
    the same keys and leaves, level by level and in the same order, with
    every nested mapping an instance of the root's class, which is the
    original itself when its nested mappings are of that class. *)
Theorem flatten_then_unflatten typ (d : dict KT VT DT) :
  builds_from_pairs typ -> plain d ->
  well_formed d -> no_empty_dict d ->
  exists fd,
    dict_to_flatdict typ d None = Ok fd /\
    flatdict_to_dict typ fd = Ok (retype typ d) /\
    (uniform typ d -> flatdict_to_dict typ fd = Ok d).
Proof.
  intros Htyp Hplain Hwf Hne. exists (leaves d).
  split; [now apply dict_to_flatdict_leaves|].
  assert (Hback : flatdict_to_dict typ (leaves d) = Ok (retype typ d)).
  { unfold flatdict_to_dict.
    now rewrite (unflatten_leaves typ Hwf Hne [] (fun _ _ Hin => Hin)). }
  split; [exact Hback|].
  intros Hun. now rewrite Hback, retype_uniform.
Qed.

(** C2, amended: for every flat mapping of a class that builds a
    mapping from a list of pairs as [dict] does, whose keys are non-empty
    tuples none of which continues another and whose values are not
    mappings, [flatdict_to_dict] succeeds, [dict_to_flatdict] of its
    result succeeds, and the flat mapping it returns holds exactly the
    entries of the original one (the entries may come in another
    order). *)
Theorem unflatten_then_flatten typ (fd : flatdict KT VT DT) :
  builds_from_pairs typ ->
  NoDup (keys fd) ->
  (forall p v, In (p, v) fd -> p <> [] /\ is_leaf v) ->
  prefix_free (keys fd) ->
  exists d fd',
    flatdict_to_dict typ fd = Ok d /\
    dict_to_flatdict typ d None = Ok fd' /\
    Permutation fd' fd.
Proof.
  intros Htyp Hnd Hshape Hfree.
  destruct (@unflatten_prefix_free typ fd [])
    as (d & Hloop & Hwf & _ & Hun & Hperm);
    try assumption; try constructor.
  - intros p _ [].
  - exists d, (leaves d). split; [exact Hloop|]. split; [|exact Hperm].
    apply dict_to_flatdict_leaves; [exact Htyp | exact Hwf |].
    now apply (uniform_plain Htyp).
Qed.
End FlattenFacts.

(** *** Concrete dictionaries *)

Import samples.
Open Scope string_scope.
#[local] Existing Instance integers.

Lemma dict_builds_from_pairs :
  builds_from_pairs (objects := integers (KT := string)) dict_.
Proof. intros items. reflexivity. Qed.

Lemma OrderedDict_builds_from_pairs :
  builds_from_pairs (objects := integers (KT := string)) OrderedDict.
Proof. intros items. reflexivity. Qed.

Lemma nested_example_plain : plain nested_example.
Proof.
  unfold nested_example. repeat constructor;
    apply dict_builds_from_pairs.
Qed.

Lemma flatten_then_unflatten_witness :
  builds_from_pairs (objects := integers (KT := string)) dict_ /\
  plain nested_example /\
  well_formed nested_example /\ no_empty_dict nested_example /\
  exists fd,
    dict_to_flatdict dict_ nested_example None = Ok fd /\
    flatdict_to_dict dict_ fd = Ok (retype dict_ nested_example) /\
    (uniform dict_ nested_example ->
     flatdict_to_dict dict_ fd = Ok nested_example).
Proof.
  assert (Hwf : well_formed nested_example).
  { unfold nested_example. repeat constructor; simpl; intuition discriminate. }
  assert (Hne : no_empty_dict nested_example).
  { unfold nested_example. repeat constructor; discriminate. }
  exact (conj dict_builds_from_pairs (conj nested_example_plain
    (conj Hwf (conj Hne
      (flatten_then_unflatten dict_builds_from_pairs nested_example_plain
         Hwf Hne))))).
Defined.

(** C1 as stated fails: a nested mapping that holds an empty mapping
    comes back without it, and a nested mapping that holds a
    [defaultdict] is not flattened at all, since [defaultdict(items)]
    raises. *)
Lemma empty_nested_dict_is_lost :
  let d : dict string nat dict_type := [("a", Dict dict_ [])] in
  (well_formed d /\
   (fd <- dict_to_flatdict dict_ d None ;; flatdict_to_dict dict_ fd) = Ok [] /\
   (fd <- dict_to_flatdict dict_ d None ;; flatdict_to_dict dict_ fd) <> Ok d) /\
  (well_formed defaultdict_example /\ no_empty_dict defaultdict_example /\
   exists msg,
     (fd <- dict_to_flatdict dict_ defaultdict_example None ;;
      flatdict_to_dict dict_ fd) = Raise (TypeError msg)).
Proof.
  cbv zeta. split; [split; [|split] | split; [|split]].
  - repeat constructor. simpl. tauto.
  - reflexivity.
  - discriminate.
  - unfold defaultdict_example. repeat constructor; simpl; tauto.
  - unfold defaultdict_example. repeat constructor; discriminate.
  - eexists. reflexivity.
Qed.

Lemma unflatten_then_flatten_witness :
  builds_from_pairs (objects := integers (KT := string)) dict_ /\
  NoDup (keys flat_example) /\
  (forall p v, In (p, v) flat_example -> p <> [] /\ is_leaf v) /\
  prefix_free (keys flat_example) /\
  exists d fd',
    flatdict_to_dict dict_ flat_example = Ok d /\
    dict_to_flatdict dict_ d None = Ok fd' /\
    Permutation fd' flat_example.
Proof.
  assert (Hnd : NoDup (keys flat_example)).
  { unfold flat_example. repeat constructor; simpl; intuition discriminate. }
  assert (Hshape : forall p v, In (p, v) flat_example -> p <> [] /\ is_leaf v).
  { intros p v Hin. simpl in Hin.
    destruct Hin as [E|[E|[E|[]]]]; inversion E; subst; simpl; split;
      [discriminate | exact I | discriminate | exact I | discriminate | exact I]. }
  assert (Hfree : prefix_free (keys flat_example)).
  { intros p q Hp Hq [s E]. simpl in Hp, Hq.
    destruct Hp as [<-|[<-|[<-|[]]]]; destruct Hq as [<-|[<-|[<-|[]]]];
      try reflexivity; simpl in E; inversion E. }
  exact (conj dict_builds_from_pairs (conj Hnd (conj Hshape (conj Hfree
           (unflatten_then_flatten flat_example dict_builds_from_pairs Hnd
              Hshape Hfree))))).
Defined.

(** C2 as stated fails: a key that continues a later key is overwritten
    with its whole dictionary, and the entry is gone after re-flattening;
    and a flat [defaultdict] comes back as nested [defaultdict]s, which
    [dict_to_flatdict] does not flatten, since [defaultdict(items)]
    raises. *)
Lemma continued_key_is_overwritten :
  let fd : flatdict string nat dict_type :=
    [(["a"; "b"], Leaf 1); (["a"], Leaf 2)] in
  (NoDup (keys fd) /\
   flatdict_to_dict dict_ fd = Ok [("a", Leaf 2)] /\
   dict_to_flatdict dict_ [("a", Leaf 2 : value string nat dict_type)] None
   = Ok [(["a"], Leaf 2)] /\
   ~ Permutation [(["a"], Leaf 2 : value string nat dict_type)] fd) /\
  (flatdict_to_dict defaultdict
     [(["a"; "b"], Leaf 1 : value string nat dict_type)]
   = Ok [("a", Dict defaultdict [("b", Leaf 1)])] /\
   exists msg,
     dict_to_flatdict defaultdict
       [("a", Dict defaultdict [("b", Leaf 1)] : value string nat dict_type)]
       None
     = Raise (TypeError msg)).
Proof.
  cbv zeta. split; [split; [|split; [|split]] | split].
  - repeat constructor; simpl; intuition discriminate.
  - reflexivity.
  - reflexivity.
  - intros Hperm. apply Permutation_length in Hperm. discriminate.
  - reflexivity.
  - eexists. reflexivity.
Qed.

(** The round trip gives the nested mappings the class of the root. *)
Example nested_classes_become_the_root_class :
  (fd <- dict_to_flatdict dict_ mixed_example None ;;
   flatdict_to_dict dict_ fd) = Ok nested_example /\
  retype dict_ mixed_example = nested_example.
Proof. split; reflexivity. Qed.

(** A nested [Counter] is flattened to the count of its entries: the
    flat mapping [{(('a', 'b'), 1): 1}], which holds the pair of the key
    path and the leaf as a key, and does not come back as the nested
    mapping. *)
Example counter_counts_the_entries :
  dict_to_flatdict (objects := counted) builtin_dict counter_example None
  = Ok [([Tuple [Str "a"; Str "b"]; Int 1], Leaf (Int 1))] /\
  (fd <- dict_to_flatdict (objects := counted) builtin_dict counter_example
           None ;;
   flatdict_to_dict (objects := counted) builtin_dict fd)
  = Ok [(Tuple [Str "a"; Str "b"],
         Dict builtin_dict [(Int 1, Leaf (Int 1))])].
Proof. split; reflexivity. Qed.

(** Other flat mappings that [flatdict_to_dict] does not take back. *)
Example empty_key_tuple_raises :
  flatdict_to_dict dict_ [([], Leaf 1 : value string nat dict_type)]
  = Raise IndexError.
Proof. reflexivity. Qed.

Example scalar_on_the_way_raises :
  exists msg,
    flatdict_to_dict dict_
      [(["a"], Leaf 1 : value string nat dict_type); (["a"; "b"], Leaf 2)]
    = Raise (TypeError msg).
Proof. eexists. reflexivity. Qed.

Example dict_value_is_flattened_further :
  exists d,
    flatdict_to_dict dict_
      [(["a"], Dict dict_ [("b", Leaf 1)] : value string nat dict_type)]
    = Ok d /\
    dict_to_flatdict dict_ d None = Ok [(["a"; "b"], Leaf 1)].
Proof. eexists. split; reflexivity. Qed.

(** The entries come back in the order of the nested dictionary, which
    need not be the order of the flat one. *)
Example order_of_entries_may_change :
  exists d,
    flatdict_to_dict dict_ flat_example = Ok d /\
    dict_to_flatdict dict_ d None =
    Ok [(["a"; "x"], Leaf 1); (["a"; "y"], Leaf 3); (["b"], Leaf 2)].
Proof. eexists. split; reflexivity. Qed.
End flatten_facts.

(* ================================================================== *)
(** * [extract_instances] *)
(* ================================================================== *)

Module extract_facts.
Import pydict pydict_facts collections.

Section ExtractFacts.
Context {ty obj : Type} `{Hashable ty}.
Variable isinstance : obj -> ty -> bool.
Implicit Types (ret : list (ty * list obj)) (t : ty) (o : obj)
  (types : list ty) (objects : list obj).

Lemma getitem_append ret t' o t :
  defaultdict_getitem (defaultdict_append ret t' o) t =
  if key_eq_dec t t' then defaultdict_getitem ret t' ++ [o]
  else defaultdict_getitem ret t.
Proof.
  unfold defaultdict_append, defaultdict_getitem at 1.
  rewrite get_setitem. now destruct (key_eq_dec t t').
Qed.

Lemma extract_one_cons t0 types ret o :
  extract_one isinstance (t0 :: types) ret o =
  extract_one isinstance types
    (if isinstance o t0 then defaultdict_append ret t0 o else ret) o.
Proof. reflexivity. Qed.

(** One object and a type that is not requested. *)
Lemma extract_one_other types : forall ret o t,
  ~ In t types ->
  defaultdict_getitem (extract_one isinstance types ret o) t =
  defaultdict_getitem ret t.
Proof.
  induction types as [|t0 types IH]; intros ret o t Hin; [reflexivity|].
  simpl in Hin. rewrite extract_one_cons.
  rewrite IH by tauto. destruct (isinstance o t0); [|reflexivity].
  rewrite getitem_append. destruct (key_eq_dec t t0); [subst; tauto|reflexivity].
Qed.

(** One object and a type that is requested once. *)
Lemma extract_one_requested types : NoDup types -> forall ret o t,
  In t types ->
  defaultdict_getitem (extract_one isinstance types ret o) t =
  defaultdict_getitem ret t ++ (if isinstance o t then [o] else []).
Proof.
  induction 1 as [|t0 types Hnew _ IH]; intros ret o t Hin; [contradiction|].
  rewrite extract_one_cons.
  destruct (key_eq_dec t t0) as [->|Hne].
  - rewrite extract_one_other by exact Hnew.
    destruct (isinstance o t0); [|now rewrite app_nil_r].
    rewrite getitem_append. now destruct (key_eq_dec t0 t0).
  - destruct Hin as [E|Hin]; [congruence|].
    rewrite IH by exact Hin. f_equal.
    destruct (isinstance o t0); [|reflexivity].
    rewrite getitem_append. now destruct (key_eq_dec t t0).
Qed.

Lemma extract_one_keys types : forall ret o t,
  In t (keys (extract_one isinstance types ret o)) <->
  In t (keys ret) \/ (In t types /\ isinstance o t = true).
Proof.
  induction types as [|t0 types IH]; intros ret o t.
  - simpl. tauto.
  - rewrite extract_one_cons.
    rewrite IH. destruct (isinstance o t0) eqn:E.
    + unfold defaultdict_append. rewrite keys_setitem. simpl.
      intuition (subst; auto).
    + simpl. intuition (subst; auto; congruence).
Qed.

(** All the objects. *)
Lemma extract_all_requested types : NoDup types -> forall objects ret t,
  In t types ->
  defaultdict_getitem (fold_left (extract_one isinstance types) objects ret) t =
  defaultdict_getitem ret t ++ filter (fun o => isinstance o t) objects.
Proof.
  intros Hnd. induction objects as [|o objects IH]; intros ret t Hin; simpl.
  - now rewrite app_nil_r.
  - rewrite IH, extract_one_requested, <- app_assoc by assumption.
    now destruct (isinstance o t).
Qed.

Lemma extract_all_keys types : forall objects ret t,
  In t (keys (fold_left (extract_one isinstance types) objects ret)) <->
  In t (keys ret) \/
  (In t types /\ exists o, In o objects /\ isinstance o t = true).
Proof.
  induction objects as [|o objects IH]; intros ret t; simpl.
  - split; [tauto | intros [Hin|[_ [o [[] _]]]]; exact Hin].
  - rewrite IH, extract_one_keys. split.
    + intros [[Hin|[Hin Ho]]|[Hin [o' [Hin' Ho']]]]; eauto 7.
    + intros [Hin|[Hin [o' [[<-|Hin'] Ho']]]]; eauto 7.
Qed.

(** C8, amended: with one requested type, [extract_instances] returns
    the list of the objects that are instances of it, in their order;
    with a tuple of several pairwise distinct types it returns a mapping
    (the [defaultdict]) that reads, at each requested type, as the list
    of the objects matching that type, in their order, so that an object
    matching several requested types is in the list of each; the keys it
    stores are the requested types that some object matches. *)
Theorem extract_instances_spec objects :
  (forall t,
     extract_instances isinstance objects (Single t) =
     Instances (filter (fun o => isinstance o t) objects) /\
     extract_instances isinstance objects (Collection [t]) =
     Instances (filter (fun o => isinstance o t) objects)) /\
  (forall types,
     NoDup types -> 2 <= List.length types ->
     exists ret,
       extract_instances isinstance objects (Collection types) = ByType ret /\
       (forall t, In t types ->
          defaultdict_getitem ret t = filter (fun o => isinstance o t) objects) /\
       (forall t o, In t types -> In o objects -> isinstance o t = true ->
          In o (defaultdict_getitem ret t)) /\
       (forall t, In t (keys ret) <->
          In t types /\ exists o, In o objects /\ isinstance o t = true)).
Proof.
  split.
  - intros t.
    assert (Hone : extract_instances isinstance objects (Collection [t]) =
                   Instances (filter (fun o => isinstance o t) objects)).
    { unfold extract_instances. simpl ensure_iterable. cbv beta iota zeta.
      f_equal.
      rewrite extract_all_requested;
        [reflexivity | repeat constructor; simpl; tauto | now left]. }
    split; exact Hone.
  - intros types Hnd Hlen.
    exists (fold_left (extract_one isinstance types) objects []).
    assert (Hget : forall t, In t types ->
      defaultdict_getitem (fold_left (extract_one isinstance types) objects []) t
      = filter (fun o => isinstance o t) objects).
    { intros t Hin. now rewrite extract_all_requested. }
    split; [|split; [exact Hget|split]].
    + unfold extract_instances. simpl ensure_iterable. cbv zeta.
      destruct types as [|t0 [|t1 types]]; simpl in Hlen; try lia; reflexivity.
    + intros t o Hin Ho Hmatch. rewrite Hget by exact Hin.
      apply filter_In. now split.
    + intros t. rewrite extract_all_keys. simpl. tauto.
Qed.
End ExtractFacts.

Import samples.

Lemma extract_instances_spec_witness :
  NoDup [str; int] /\ 2 <= List.length [str; int] /\
  exists ret,
    extract_instances isinstance mixed_objects (Collection [str; int])
    = ByType ret /\
    (forall t, In t [str; int] ->
       defaultdict_getitem ret t
       = filter (fun o => isinstance o t) mixed_objects) /\
    (forall t o, In t [str; int] -> In o mixed_objects ->
       isinstance o t = true -> In o (defaultdict_getitem ret t)) /\
    (forall t, In t (keys ret) <->
       In t [str; int] /\
       exists o, In o mixed_objects /\ isinstance o t = true).
Proof.
  assert (Hnd : NoDup [str; int])
    by (repeat constructor; simpl; intuition discriminate).
  assert (Hlen : 2 <= List.length [str; int]) by (simpl; lia).
  exact (conj Hnd (conj Hlen
    (proj2 (extract_instances_spec isinstance mixed_objects) [str; int] Hnd Hlen))).
Defined.

(** C8 as stated fails: a type that is requested twice gets every
    matching object twice. *)
Lemma repeated_type_repeats_objects :
  extract_instances isinstance [VInt 1] (Collection [int; int])
  = ByType [(int, [VInt 1; VInt 1])] /\
  defaultdict_getitem [(int, [VInt 1; VInt 1])] int
  <> filter (fun o => isinstance o int) [VInt 1].
Proof. split; [reflexivity | discriminate]. Qed.

(** The lists of the specification's example, and the one of [int] when
    [bool] is requested with it. *)
Example extract_strings_and_integers :
  extract_instances isinstance mixed_objects (Single int)
  = Instances [VInt 1; VBool true; VInt 2] /\
  extract_instances isinstance mixed_objects (Collection [str; int])
  = ByType [(str, [VStr "a"; VStr "b"]); (int, [VInt 1; VBool true; VInt 2])] /\
  extract_instances isinstance mixed_objects (Collection [int; bool_])
  = ByType [(int, [VInt 1; VBool true; VInt 2]); (bool_, [VBool true])].
Proof. repeat split. Qed.

(** A requested type that matches nothing is no key of the mapping. *)
Example unmatched_type_has_no_key :
  extract_instances isinstance [VInt 1] (Collection [str; int])
  = ByType [(int, [VInt 1])].
Proof. reflexivity. Qed.
End extract_facts.

(* ================================================================== *)
(** * [batched_iterable] *)
(* ================================================================== *)

Module batched_facts.
Import collections.

Section BatchedFacts.
Context {T S : Type}.
Variable next : S -> option (T * S).
Implicit Types (it : S) (l : list T) (batches : list (list T)).

(** [islice] takes the first elements of what the iterator has left. *)
Lemma islice_drains stop : forall it l,
  drains next it l ->
  exists it', islice next it stop = (firstn stop l, it') /\
              drains next it' (skipn stop l).
Proof.
  induction stop as [|stop IH]; intros it l Hdr.
  - exists it. split; [reflexivity | exact Hdr].
  - destruct Hdr as [it Hstop | it x it1 l Hnext Hdr]; simpl; rewrite ?Hstop, ?Hnext.
    + exists it. split; [reflexivity | now constructor].
    + destruct (IH it1 l Hdr) as (it' & -> & Hdr'). now exists it'.
Qed.

(** The loop over a finite iterable, with a batch size of at least one. *)
Lemma batched_loop_drains size :
  0 < size ->
  forall fuel it l,
  drains next it l -> List.length l < fuel ->
  exists batches,
    batched_loop next fuel it size = Some batches /\
    List.concat batches = l /\
    Forall (fun b => 1 <= List.length b <= size) batches /\
    Forall (fun b => List.length b = size) (removelast batches) /\
    (l = [] -> batches = []).
Proof.
  intros Hsize. induction fuel as [|fuel IH]; intros it l Hdr Hfuel; [lia|].
  destruct (islice_drains size Hdr) as (it' & Hslice & Hdr').
  cbn [batched_loop]. rewrite Hslice.
  destruct l as [|x l].
  - rewrite firstn_nil. exists []. repeat split; constructor.
  - destruct size as [|n]; [lia|]. cbn [firstn skipn] in *.
    destruct (IH it' (skipn n l) Hdr') as (batches & -> & Hcat & Hlen & Hfull & Hnil).
    { rewrite length_skipn. simpl in Hfuel. lia. }
    exists ((x :: firstn n l) :: batches). split; [reflexivity|].
    split; [|split; [|split]].
    + simpl. rewrite Hcat, firstn_skipn. reflexivity.
    + constructor; [|exact Hlen]. simpl. rewrite length_firstn. lia.
    + destruct batches as [|b batches]; [constructor|].
      change (removelast ((x :: firstn n l) :: b :: batches))
        with ((x :: firstn n l) :: removelast (b :: batches)).
      constructor; [|exact Hfull].
      simpl. rewrite length_firstn. f_equal.
      destruct (Nat.le_gt_cases n (List.length l)) as [Hle|Hgt]; [lia|].
      rewrite skipn_all2 in Hnil by lia. now specialize (Hnil eq_refl).
    + discriminate.
Qed.
End BatchedFacts.

(** C9, amended: over a finite iterable and with a positive batch size
    that [itertools.islice] takes, one up to [sys.maxsize],
    [batched_iterable] comes to its end; the batches it yields, put
    together, are the elements of the iterable in their order; each has
    between 1 and [size] elements, and each but the last has [size] of
    them; nothing is yielded for an empty iterable.  Seven elements in
    batches of three come as three, three and one. *)
Theorem batched_iterable_spec {T S : Type} (next : S -> option (T * S)) :
  (forall (it : S) (l : list T) (size : Z) (fuel : nat),
     drains next it l -> (0 < size <= maxsize)%Z -> List.length l < fuel ->
     exists batches,
       batched_iterable next fuel it size = Exhausted batches /\
       List.concat batches = l /\
       Forall (fun b => 1 <= List.length b <= Z.to_nat size) batches /\
       Forall (fun b => List.length b = Z.to_nat size) (removelast batches) /\
       (l = [] -> batches = [])) /\
  (forall a b c d e f g : T,
     batched_iterable list_next 8 [a; b; c; d; e; f; g] 3 =
     Exhausted [[a; b; c]; [d; e; f]; [g]]) /\
  batched_iterable (@list_next T) 1 [] 3 = Exhausted [].
Proof.
  split; [|split; reflexivity].
  intros it l size fuel Hdr Hsize Hfuel.
  assert (Hpos : 0 < Z.to_nat size) by lia.
  destruct (batched_loop_drains Hpos Hdr Hfuel) as (batches & Hloop & Hrest).
  exists batches. split; [|exact Hrest].
  unfold batched_iterable. rewrite Hloop.
  destruct (Z.ltb_spec size 0); [lia|].
  destruct (Z.ltb_spec maxsize size); [lia | reflexivity].
Qed.

Lemma drains_list {T : Type} (l : list T) : drains list_next l l.
Proof.
  induction l as [|x l IH]; [now constructor|].
  now apply drains_next with (it' := l).
Qed.

Lemma batched_iterable_spec_witness :
  drains list_next [1; 2; 3; 4; 5; 6; 7] [1; 2; 3; 4; 5; 6; 7] /\
  (0 < 3 <= maxsize)%Z /\ List.length [1; 2; 3; 4; 5; 6; 7] < 8 /\
  exists batches,
    batched_iterable list_next 8 [1; 2; 3; 4; 5; 6; 7] 3 = Exhausted batches /\
    List.concat batches = [1; 2; 3; 4; 5; 6; 7] /\
    Forall (fun b => 1 <= List.length b <= Z.to_nat 3) batches /\
    Forall (fun b => List.length b = Z.to_nat 3) (removelast batches) /\
    ([1; 2; 3; 4; 5; 6; 7] = [] -> batches = []).
Proof.
  assert (Hdr : drains list_next [1; 2; 3; 4; 5; 6; 7] [1; 2; 3; 4; 5; 6; 7])
    by apply drains_list.
  assert (Hsize : (0 < 3 <= maxsize)%Z) by (unfold maxsize; lia).
  assert (Hfuel : List.length [1; 2; 3; 4; 5; 6; 7] < 8) by (simpl; lia).
  exact (conj Hdr (conj Hsize (conj Hfuel
    (proj1 (batched_iterable_spec list_next) _ _ 3%Z 8 Hdr Hsize Hfuel)))).
Defined.

(** C9 as stated fails: a batch size above [sys.maxsize] is positive,
    and [islice] refuses it at the first turn, so that no batch is
    yielded, whatever the iterable holds. *)
Lemma size_above_maxsize_raises :
  let size := 9223372036854775808%Z in
  drains list_next [1; 2; 3] [1; 2; 3] /\ (0 < size)%Z /\
  (exists msg,
     batched_iterable list_next 4 [1; 2; 3] size = Raised (ValueError msg)) /\
  forall fuel batches,
    batched_iterable list_next fuel [1; 2; 3] size <> Exhausted batches.
Proof.
  cbv zeta. split; [apply drains_list|]. split; [lia|].
  assert (Hrefused :
    ((9223372036854775808 <? 0) || (maxsize <? 9223372036854775808))%Z = true)
    by reflexivity.
  split.
  - eexists. unfold batched_iterable. rewrite Hrefused. reflexivity.
  - intros fuel batches. unfold batched_iterable. rewrite Hrefused.
    destruct fuel; discriminate.
Qed.

(** C10: with a batch size of 0 the first slice is empty, whatever the
    iterable holds, and takes nothing from it: the generator ends at its
    first turn, without a batch and without an exception. *)
Theorem batched_iterable_zero {T S : Type} (next : S -> option (T * S))
    (it : S) (fuel : nat) :
  islice next it (Z.to_nat 0) = ([], it) /\
  batched_iterable next (Datatypes.S fuel) it 0 = Exhausted [].
Proof. split; reflexivity. Qed.
End batched_facts.

(* ================================================================== *)
(** * [variables.get] *)
(* ================================================================== *)

Module variables_facts.
Import variables.

(** C7: [get] returns the caller's default, [None] when none was
    given, and does not raise when the boundary reports that there is no
    such variable; it returns the stored value of the variable that the
    boundary resolves; an error of the boundary is raised as it is.  The
    state the boundary leaves is the state [get] leaves. *)
Theorem get_spec {World : Type}
    (read_variable_by_name : string -> io World (option Variable_))
    (name : string) (default : option string) (w w' : World) :
  (read_variable_by_name name w = (Ok None, w') ->
   get read_variable_by_name name default w = (Ok default, w') /\
   get read_variable_by_name name None w = (Ok None, w')) /\
  (forall variable,
   read_variable_by_name name w = (Ok (Some variable), w') ->
   get read_variable_by_name name default w = (Ok (Some (value variable)), w')) /\
  (forall e,
   read_variable_by_name name w = (Raise e, w') ->
   get read_variable_by_name name default w = (Raise e, w')).
Proof.
  unfold get, _get_variable_by_name, io_bind, io_ret.
  repeat split; intros; match goal with E : _ = (_, w') |- _ => now rewrite E end.
Qed.
Import samples.
Open Scope string_scope.

Lemma get_spec_witness :
  let table := [("region", "eu")] in
  (table_read "zone" table = (Ok None, table) /\
   get table_read "zone" (Some "fallback") table = (Ok (Some "fallback"), table) /\
   get table_read "zone" None table = (Ok None, table)) /\
  (table_read "region" table = (Ok (Some {| value := "eu" |}), table) /\
   get table_read "region" (Some "fallback") table = (Ok (Some "eu"), table)) /\
  (unreachable_read "region" table = (Raise (BoundaryError 503), table) /\
   get unreachable_read "region" (Some "fallback") table
   = (Raise (BoundaryError 503), table)).
Proof.
  intros table.
  assert (Hmissing : table_read "zone" table = (Ok None, table)) by reflexivity.
  assert (Hfound : table_read "region" table
                   = (Ok (Some {| value := "eu" |}), table)) by reflexivity.
  assert (Hdown : unreachable_read "region" table
                  = (Raise (BoundaryError 503), table)) by reflexivity.
  split; [|split].
  - split; [exact Hmissing|].
    exact (proj1 (get_spec table_read "zone" (Some "fallback") table table)
             Hmissing).
  - split; [exact Hfound|].
    exact (proj1 (proj2 (get_spec table_read "region" (Some "fallback")
                           table table)) _ Hfound).
  - split; [exact Hdown|].
    exact (proj2 (proj2 (get_spec unreachable_read "region" (Some "fallback")
                           table table)) _ Hdown).
Defined.
End variables_facts.

(* ================================================================== *)
(** * Flows *)
(* ================================================================== *)

Module flow_facts.
Import pydict pydict_facts flow.
Open Scope string_scope.

Section FlowFacts.
Context {World RunId ParameterSchema : Type}.
Context {boundary : Boundary (World := World) (RunId := RunId)
                      (ParameterSchema := ParameterSchema)}.
Local Abbreviation Flow := (Flow (ParameterSchema := ParameterSchema)).
Implicit Types (self : Flow) (c : callable_obj) (fn : pyobj) (a : Args).

(** *** Attributes *)

Lemma getattr_setattr self name v name' :
  getattr (setattr self name v) name' =
  if string_dec name' name then Ok v else getattr self name'.
Proof.
  unfold getattr, setattr. rewrite get_setitem.
  unfold key_eq_dec, Hashable_string. now destruct (string_dec name' name).
Qed.

Lemma getattr_setattr_same self name v :
  getattr (setattr self name v) name = Ok v.
Proof. rewrite getattr_setattr. now destruct (string_dec name name). Qed.

Lemma getattr_setattr_other self name v name' :
  name' <> name -> getattr (setattr self name v) name' = getattr self name'.
Proof.
  intros Hne. rewrite getattr_setattr. now destruct (string_dec name' name).
Qed.

(** [update_wrapper] leaves alone what it does not assign and what the
    wrapped callable does not carry. *)
Lemma getattr_update_wrapper self c name :
  ~ In name WRAPPER_ASSIGNMENTS -> name <> "__wrapped__" ->
  ~ In name (keys (__dict__ c)) ->
  getattr (update_wrapper self c) name = getattr self name.
Proof.
  intros Hassigned Hwrapped Hown. unfold update_wrapper.
  rewrite getattr_setattr_other by exact Hwrapped.
  set (assigned := fold_left _ WRAPPER_ASSIGNMENTS self).
  assert (Hupd : forall (own : list (string * pyobj)) (w : Flow),
    ~ In name (keys own) ->
    getattr (fold_left (fun w kv => setattr w (fst kv) (Plain (snd kv))) own w) name
    = getattr w name).
  { induction own as [|[k v] own IH]; intros w Hin; [reflexivity|].
    simpl in Hin. simpl fold_left. rewrite IH by tauto.
    apply getattr_setattr_other. intros E. apply Hin. now left. }
  rewrite Hupd by exact Hown. subst assigned.
  generalize dependent self. induction WRAPPER_ASSIGNMENTS as [|n names IH];
    intros self; [reflexivity|].
  simpl in Hassigned. simpl fold_left. rewrite IH by tauto.
  destruct (getattr_callable c n); [|reflexivity].
  apply getattr_setattr_other. intros E. apply Hassigned. now left.
Qed.

(** *** Construction *)

(** C5: without a callable ([fn] left at [None]) and with an [fn]
    that is not callable, an integer for one, [__init__] raises
    [TypeError], the InvalidInput of the specification, and returns no
    [Flow]. *)
Theorem init_requires_callable name version executor description tags :
  (exists msg,
     __init__ name PyNone version executor description tags
     = Raise (TypeError msg)) /\
  (forall fn, callable fn = false ->
     exists msg,
       __init__ name fn version executor description tags
       = Raise (TypeError msg)) /\
  (forall z, exists msg,
     __init__ name (PyInt z) version executor description tags
     = Raise (TypeError msg)).
Proof.
  assert (Hnot : forall fn, callable fn = false ->
    exists msg,
      __init__ name fn version executor description tags
      = Raise (TypeError msg)).
  { intros fn Hfn. unfold __init__.
    destruct fn; try discriminate Hfn; destruct (negb (truthy _)); eauto. }
  split; [|split].
  - now apply Hnot.
  - exact Hnot.
  - intros z. now apply Hnot.
Qed.
(** What a successful [__init__] has built. *)
Lemma init_inversion name fn version executor description tags self :
  __init__ name fn version executor description tags = Ok self ->
  exists c name' version' parameters,
    fn = PyCallable c /\
    match given name with
    | Some n => name' = PyStr n
    | None => getattr_callable c "__name__" = Some name'
    end /\
    ValidatedFunction c = Ok tt /\
    self =
    setattr
      (setattr
         (setattr
            (setattr
               (update_wrapper
                  (setattr
                     (setattr (setattr [] "name" (Plain name')) "description"
                        (Plain
                           match given description with
                           | Some d => PyStr d
                           | None =>
                               match getdoc c with
                               | Some d => PyStr d
                               | None => PyNone
                               end
                           end))
                     "fn" (Validated c))
                  c)
               "version" (Plain version'))
            "executor" (Plain executor))
         "tags"
         (StrSet
            (nodup string_dec
               match tags with Some (t :: ts) => t :: ts | _ => [] end)))
      "parameters" (Schema parameters).
Proof.
  unfold __init__. destruct (negb (truthy fn)); [discriminate|].
  destruct fn as [| | | |c]; try discriminate.
  assert (Hname : forall (m : res pyobj) (k : pyobj -> res Flow),
    (x <- m ;; k x) = Ok self -> exists x, m = Ok x /\ k x = Ok self).
  { intros [x|e] k E; [now exists x | discriminate]. }
  intros Hinit. apply Hname in Hinit. destruct Hinit as (name' & Hn & Hinit).
  unfold validate_arguments in Hinit.
  destruct (ValidatedFunction c) as [[]|] eqn:Hchecked; [|discriminate].
  cbn [bind] in Hinit.
  destruct (__globals__ c) as [flow_file|]; [|discriminate].
  simpl bind in Hinit. apply Hname in Hinit.
  destruct Hinit as (version' & _ & Hinit).
  match type of Hinit with
  | (x <- getattr ?s "fn" ;; _) = _ => destruct (getattr s "fn") as [fn'|]
  end; [|discriminate].
  simpl bind in Hinit.
  destruct (parameter_schema fn') as [parameters|]; [|discriminate].
  simpl in Hinit. inversion Hinit as [Hself]. clear Hinit.
  exists c, name', version', parameters. split; [reflexivity|]. split.
  - destruct (given name) as [n|]; [now inversion Hn|].
    destruct (getattr_callable c "__name__"); [now inversion Hn | discriminate].
  - split; [exact Hchecked | reflexivity].
Qed.

Ltac other_attribute :=
  rewrite getattr_setattr_other by discriminate.

(** The defaults of a [Flow].  Without an explicit name the name is the
    callable's [__name__], without an explicit description the
    description is its documentation ([None] when it has none), each
    when the callable's own attribute dictionary holds no entry of that
    name; the tags are the elements of the iterable, each once, and none
    when no tags are given. *)
Theorem init_defaults fn version executor tags self :
  (forall description,
     __init__ None fn version executor description tags = Ok self ->
     exists c declared,
       fn = PyCallable c /\ getattr_callable c "__name__" = Some declared /\
       (~ In "name" (keys (__dict__ c)) ->
        getattr self "name" = Ok (Plain declared))) /\
  (forall name,
     __init__ name fn version executor None tags = Ok self ->
     exists c,
       fn = PyCallable c /\
       (~ In "description" (keys (__dict__ c)) ->
        getattr self "description" =
        Ok (Plain match getdoc c with Some d => PyStr d | None => PyNone end))) /\
  (forall name description,
     __init__ name fn version executor description tags = Ok self ->
     exists elts,
       getattr self "tags" = Ok (StrSet elts) /\ NoDup elts /\
       forall t, In t elts <->
                 In t match tags with Some given_tags => given_tags | None => [] end).
Proof.
  split; [|split].
  - intros description Hinit. apply init_inversion in Hinit.
    destruct Hinit as (c & name' & version' & parameters & -> & Hname & _ & ->).
    simpl in Hname. exists c, name'. repeat split; [exact Hname|].
    intros Hown. do 4 other_attribute.
    rewrite getattr_update_wrapper;
      [| simpl; intuition discriminate | discriminate | exact Hown].
    do 2 other_attribute. apply getattr_setattr_same.
  - intros name Hinit. apply init_inversion in Hinit.
    destruct Hinit as (c & name' & version' & parameters & -> & _ & _ & ->).
    exists c. split; [reflexivity|].
    intros Hown. do 4 other_attribute.
    rewrite getattr_update_wrapper;
      [| simpl; intuition discriminate | discriminate | exact Hown].
    other_attribute. apply getattr_setattr_same.
  - intros name description Hinit. apply init_inversion in Hinit.
    destruct Hinit as (c & name' & version' & parameters & -> & _ & _ & ->).
    eexists. split; [|split].
    + other_attribute. apply getattr_setattr_same.
    + apply NoDup_nodup.
    + intros t. rewrite nodup_In. destruct tags as [[|t0 ts]|]; reflexivity.
Qed.
(** The callable a constructed [Flow] runs is the validated wrapper of
    the callable it was given, unless that one carries an attribute
    [fn] of its own. *)
Lemma init_stores_validated name c version executor description tags self :
  __init__ name (PyCallable c) version executor description tags = Ok self ->
  ~ In "fn" (keys (__dict__ c)) ->
  getattr self "fn" = Ok (Validated c).
Proof.
  intros Hinit Hown. apply init_inversion in Hinit.
  destruct Hinit as (c' & name' & version' & parameters & E & _ & _ & ->).
  inversion E; subst c'. do 4 other_attribute.
  rewrite getattr_update_wrapper;
    [| simpl; intuition discriminate | discriminate | exact Hown].
  apply getattr_setattr_same.
Qed.

(** A constructed [Flow] has no attribute [_run] of its own, unless
    the callable it was given carries one. *)
Lemma init_keeps_run_method name c version executor description tags self :
  __init__ name (PyCallable c) version executor description tags = Ok self ->
  ~ In "_run" (keys (__dict__ c)) ->
  get self "_run" = None.
Proof.
  intros Hinit Hown. apply init_inversion in Hinit.
  destruct Hinit as (c' & name' & version' & parameters & E & _ & _ & ->).
  inversion E; subst c'.
  match goal with
  | |- get ?s "_run" = None =>
      assert (Hget : getattr s "_run" = Raise (AttributeError "_run"))
  end.
  { do 4 other_attribute.
    rewrite getattr_update_wrapper;
      [| simpl; intuition discriminate | discriminate | exact Hown].
    reflexivity. }
  unfold getattr in Hget.
  match type of Hget with
  | match ?g with _ => _ end = _ => destruct g; [discriminate | reflexivity]
  end.
Qed.

(** *** Invocation *)

(** A call either raises before the body of a callable runs, and leaves
    the state as it is, or runs one body. *)
Lemma call_events stored a st :
  (exists e, call stored a st = (Raise e, st)) \/
  (exists c r w,
     call stored a st =
     (r, {| world := w; trace := (trace st ++ [Execution c])%list |})).
Proof.
  unfold call, execute, io_bind, io_lift, io_raise.
  destruct stored as [[| | | |c]|c| |]; eauto.
  - right. destruct (body c a (world st)) as [r w]. eauto.
  - destruct (coerce c a) as [a'|e]; [|eauto].
    right. destruct (body c a' (world st)) as [r w]. eauto.
Qed.

Lemma call_run_events self a st :
  (exists e, call_run self a st = (Raise e, st)) \/
  (exists c r w,
     call_run self a st =
     (r, {| world := w; trace := (trace st ++ [Execution c])%list |})).
Proof.
  unfold call_run. destruct (get self "_run") as [own|]; [apply call_events|].
  unfold _run, io_bind, io_lift, io_ret.
  destruct (getattr self "fn") as [fn|e]; [|eauto].
  destruct (call_events fn a st) as [[e ->]|(c & r & w & ->)]; [eauto|].
  right. exists c. destruct r as [v|e]; eauto.
Qed.

(** The run of the validated wrapper of [c]. *)
Lemma call_run_validated self c a st :
  get self "_run" = None -> getattr self "fn" = Ok (Validated c) ->
  call_run self a st =
  match coerce c a with
  | Ok a' =>
      let (r, w) := body c a' (world st) in
      (r, {| world := w; trace := (trace st ++ [Execution c])%list |})
  | Raise e => (Raise e, st)
  end.
Proof.
  intros Hrun Hfn.
  unfold call_run, _run, call, execute, io_bind, io_lift, io_ret.
  rewrite Hrun, Hfn. destruct (coerce c a) as [a'|e]; [|reflexivity].
  destruct (body c a' (world st)) as [[v|e] w]; reflexivity.
Qed.

(** C3, amended: a [Flow] constructed from a callable [c] that carries
    no attribute [fn] or [_run] of its own, invoked with arguments that
    bind, that the service registers under [flow_run_id] and that the
    validated callable accepts and coerces to [a'], returns the handle
    that pairs [flow_run_id] with what the body of [c] returns for the
    coerced arguments [a'], run in the world the registration left; that
    is the value [c] returns for the arguments as they were given when
    the coercion leaves them as they are. *)
Theorem call_returns_handle name c version executor description tags self
    a a' parameters flow_run_id v st w1 w2 :
  __init__ name (PyCallable c) version executor description tags = Ok self ->
  ~ In "fn" (keys (__dict__ c)) ->
  ~ In "_run" (keys (__dict__ c)) ->
  bind_partial (Validated c) a = Ok parameters ->
  create_flow_run_sync self parameters (world st) = (Ok flow_run_id, w1) ->
  coerce c a = Ok a' ->
  body c a' w1 = (Ok v, w2) ->
  __call__ self a st =
  (Ok {| run_id := flow_run_id; result := v |},
   {| world := w2;
      trace := (trace st ++ [Registration (Ok flow_run_id); Execution c])%list |}).
Proof.
  intros Hinit Hown_fn Hown_run Hbind Hreg Hcoerce Hbody.
  pose proof (init_stores_validated _ _ _ _ _ _ Hinit Hown_fn) as Hfn.
  pose proof (init_keeps_run_method _ _ _ _ _ _ Hinit Hown_run) as Hrun.
  unfold __call__, register, io_bind, io_lift, io_ret.
  rewrite Hfn, Hbind, Hreg, (@call_run_validated self c a _ Hrun Hfn), Hcoerce.
  cbn [world trace]. rewrite Hbody, <- app_assoc. reflexivity.
Qed.

(** What an invocation can add to the trace. *)
Lemma call_trace self a st :
  let (r, st') := __call__ self a st in
  exists new,
    trace st' = (trace st ++ new)%list /\
    (new = [] /\ (exists e, r = Raise e) \/
     (exists e, new = [Registration (Raise e)] /\ r = Raise e) \/
     (exists id e, new = [Registration (Ok id)] /\ r = Raise e) \/
     (exists id c, new = [Registration (Ok id); Execution c] /\
        forall h, r = Ok h -> run_id h = id)).
Proof.
  unfold __call__, register, io_bind, io_lift, io_ret.
  destruct (getattr self "fn") as [fn|e].
  2:{ exists []. rewrite app_nil_r. eauto. }
  destruct (bind_partial fn a) as [parameters|e].
  2:{ exists []. rewrite app_nil_r. eauto. }
  destruct (create_flow_run_sync self parameters (world st)) as [[id|e] w1].
  2:{ eexists. split; [reflexivity|]. eauto. }
  match goal with
  | |- context [call_run self a ?s] =>
      destruct (call_run_events self a s) as [[e ->]|(c & r & w & ->)]
  end; cbn [world trace].
  - eexists. split; [reflexivity|]. right; right; left. eauto.
  - destruct r as [v|e];
      (exists [Registration (Ok id); Execution c];
       split; [cbn [trace]; now rewrite <- app_assoc|];
       right; right; right; exists id, c; split; [reflexivity|];
       intros h E; inversion E; reflexivity).
Qed.

(** C4: in the trace of an invocation, the run of the callable comes
    after a registration that has returned, and nothing else comes
    before it; when the registration raises, the invocation raises
    that error, the callable is not run, and there is no handle. *)
Theorem registration_precedes_execution self a st :
  (forall r st',
     __call__ self a st = (r, st') ->
     exists new,
       trace st' = (trace st ++ new)%list /\
       forall before c after,
         new = (before ++ Execution c :: after)%list ->
         exists id, before = [Registration (Ok id)]) /\
  (forall stored parameters e w1,
     getattr self "fn" = Ok stored ->
     bind_partial stored a = Ok parameters ->
     create_flow_run_sync self parameters (world st) = (Raise e, w1) ->
     __call__ self a st =
     (Raise e,
      {| world := w1;
         trace := (trace st ++ [Registration (Raise e)])%list |})).
Proof.
  split.
  - intros r st' Hcall. pose proof (call_trace self a st) as Htrace.
    rewrite Hcall in Htrace. destruct Htrace as (new & Hnew & Hshape).
    exists new. split; [exact Hnew|]. intros before c after E.
    destruct Hshape as [[-> _]|[(e & -> & _)|[(id & e & -> & _)|(id & c' & -> & _)]]].
    + now destruct before.
    + destruct before as [|? [|? ?]]; discriminate.
    + destruct before as [|? [|? ?]]; discriminate.
    + exists id. destruct before as [|ev [|? [|? ?]]]; try discriminate.
      now inversion E.
  - intros stored parameters e w1 Hfn Hbind Hreg.
    unfold __call__, register, io_bind, io_lift.
    now rewrite Hfn, Hbind, Hreg.
Qed.
End FlowFacts.

Import samples.

Lemma init_requires_callable_witness :
  callable (PyInt 5) = false /\
  exists msg,
    __init__ (boundary := counting) None (PyInt 5) None PyNone None None
    = Raise (TypeError msg).
Proof.
  assert (Hnot : callable (PyInt 5) = false) by reflexivity.
  exact (conj Hnot
    (proj1 (proj2 (init_requires_callable (boundary := counting)
                     None None PyNone None None)) (PyInt 5) Hnot)).
Defined.

(** C6 fails on a callable that carries attributes called [name] and
    [description]: [update_wrapper] runs after the two assignments and
    puts the callable's attributes in their place. *)
Theorem function_attributes_replace_defaults :
  exists self,
    __init__ (boundary := counting) None (PyCallable labelled) None PyNone
      None None = Ok self /\
    getattr_callable labelled "__name__" = Some (PyStr "greet") /\
    getattr self "name" = Ok (Plain (PyStr "other")) /\
    getdoc (boundary := counting) labelled = Some "Say hello." /\
    getattr self "description" = Ok (Plain (PyStr "elsewhere")).
Proof. eexists. repeat split; reflexivity. Qed.

(** A name given to the constructor is replaced in the same way. *)
Example explicit_name_is_replaced_too :
  exists self,
    __init__ (boundary := counting) (Some "mine") (PyCallable labelled) None
      PyNone None None = Ok self /\
    getattr self "name" = Ok (Plain (PyStr "other")).
Proof. eexists. split; reflexivity. Qed.

(** The same construction from [greet], which carries no attribute of
    its own, and with the tags of the specification's example. *)
Example greet_flow_attributes :
  __init__ (boundary := counting) None (PyCallable greet) None PyNone None
    (Some ["a"; "a"; "b"]) = Ok greet_flow /\
  getattr greet_flow "name" = Ok (Plain (PyStr "greet")) /\
  getattr greet_flow "description" = Ok (Plain (PyStr "Say hello.")) /\
  getattr greet_flow "tags" = Ok (StrSet ["a"; "b"]) /\
  getattr greet_flow "fn" = Ok (Validated greet).
Proof. repeat split; reflexivity. Qed.

Lemma call_returns_handle_witness :
  let st := {| world := 7; trace := [] |} in
  __init__ (boundary := coercing) None (PyCallable double) None PyNone None
    None = Ok double_flow /\
  ~ In "fn" (keys (__dict__ double)) /\
  ~ In "_run" (keys (__dict__ double)) /\
  bind_partial (Boundary := coercing) (Validated double) string_two = Ok [] /\
  create_flow_run_sync (Boundary := coercing) double_flow [] (world st)
  = (Ok 7, 8) /\
  coerce (Boundary := coercing) double string_two = Ok int_two /\
  body (Boundary := coercing) double int_two 8 = (Ok (PyInt 4), 8) /\
  __call__ (boundary := coercing) double_flow string_two st =
  (Ok {| run_id := 7; result := PyInt 4 |},
   {| world := 8;
      trace := (trace st ++ [Registration (Ok 7); Execution double])%list |}).
Proof.
  intros st.
  assert (Hinit : __init__ (boundary := coercing) None (PyCallable double)
                    None PyNone None None = Ok double_flow) by reflexivity.
  assert (Hown_fn : ~ In "fn" (keys (__dict__ double))) by (simpl; tauto).
  assert (Hown_run : ~ In "_run" (keys (__dict__ double))) by (simpl; tauto).
  assert (Hbind : bind_partial (Boundary := coercing) (Validated double)
                    string_two = Ok []) by reflexivity.
  assert (Hreg : create_flow_run_sync (Boundary := coercing) double_flow []
                   (world st) = (Ok 7, 8)) by reflexivity.
  assert (Hcoerce : coerce (Boundary := coercing) double string_two
                    = Ok int_two) by reflexivity.
  assert (Hbody : body (Boundary := coercing) double int_two 8
                  = (Ok (PyInt 4), 8)) by reflexivity.
  exact (conj Hinit (conj Hown_fn (conj Hown_run (conj Hbind (conj Hreg
    (conj Hcoerce (conj Hbody
      (call_returns_handle (boundary := coercing) None double None PyNone
         None None string_two st Hinit Hown_fn Hown_run Hbind Hreg Hcoerce
         Hbody)))))))).
Defined.

(** C3 as stated fails: the arguments [('2',)] are accepted after
    coercion, and the handle holds what [double] returns for the integer
    [2], not what the plain [double] returns for the given ['2']. *)
Lemma coercion_changes_the_result :
  let st := {| world := 7; trace := [] |} in
  __init__ (boundary := coercing) None (PyCallable double) None PyNone None
    None = Ok double_flow /\
  coerce (Boundary := coercing) double string_two = Ok int_two /\
  fst (__call__ (boundary := coercing) double_flow string_two st)
  = Ok {| run_id := 7; result := PyInt 4 |} /\
  fst (body (Boundary := coercing) double string_two 8) = Ok (PyStr "22") /\
  PyInt 4 <> PyStr "22".
Proof. cbv zeta. repeat split; [reflexivity .. | discriminate]. Qed.

(** What the amended C3 leaves out: an attribute [fn] or [_run] that
    the callable carries takes the place of the wrapper or of the method
    ([update_wrapper] again, as for the name and the description). *)
Example carried_fn_is_called :
  exists self,
    __init__ (boundary := counting) None (PyCallable carrying_fn) None PyNone
      None None = Ok self /\
    getattr self "fn" = Ok (Plain (PyCallable builtin_len)) /\
    snd (__call__ (boundary := counting) self two_arguments
           {| world := 7; trace := [] |}) =
    {| world := 8; trace := [Registration (Ok 7); Execution builtin_len] |}.
Proof. eexists. repeat split; reflexivity. Qed.

Example carried_run_is_called :
  exists self,
    __init__ (boundary := counting) None (PyCallable carrying_run) None PyNone
      None None = Ok self /\
    getattr self "fn" = Ok (Validated carrying_run) /\
    __call__ (boundary := counting) self two_arguments
      {| world := 7; trace := [] |} =
    (Raise (TypeError "object is not callable"),
     {| world := 8; trace := [Registration (Ok 7)] |}).
Proof. eexists. repeat split; reflexivity. Qed.

(** The documentation of a method that has none of its own is the one
    of the method it overrides. *)
Example description_of_overriding_method :
  getdoc (boundary := counting) overriding_method = Some "Run the job." /\
  exists self,
    __init__ (boundary := counting) None (PyCallable overriding_method) None
      PyNone None None = Ok self /\
    getattr self "description" = Ok (Plain (PyStr "Run the job.")).
Proof. split; [reflexivity|]. eexists. split; reflexivity. Qed.

Lemma registration_precedes_execution_witness :
  let st := {| world := 7; trace := [] |} in
  getattr greet_flow "fn" = Ok (Validated greet) /\
  bind_partial (Boundary := refusing) (Validated greet) two_arguments = Ok [] /\
  create_flow_run_sync (Boundary := refusing) greet_flow [] (world st)
  = (Raise (BoundaryError 503), 7) /\
  __call__ (boundary := refusing) greet_flow two_arguments st =
  (Raise (BoundaryError 503),
   {| world := 7;
      trace := (trace st ++ [Registration (Raise (BoundaryError 503))])%list |}).
Proof.
  intros st.
  assert (Hfn : getattr greet_flow "fn" = Ok (Validated greet)) by reflexivity.
  assert (Hbind : bind_partial (Boundary := refusing) (Validated greet)
                    two_arguments = Ok []) by reflexivity.
  assert (Hreg : create_flow_run_sync (Boundary := refusing) greet_flow []
                   (world st) = (Raise (BoundaryError 503), 7)) by reflexivity.
  exact (conj Hfn (conj Hbind (conj Hreg
    (proj2 (registration_precedes_execution (boundary := refusing) greet_flow
              two_arguments st) _ _ _ _ Hfn Hbind Hreg)))).
Defined.
End flow_facts.

(* ================================================================== *)
(** * More on flattening and unflattening *)
(* ================================================================== *)

Module flatten_more.
Import pydict pydict_facts collections flatten_facts.
Local Open Scope list_scope.

Section FlattenMore.
Context {KT VT DT : Type} `{Hashable KT} {objects : Objects KT VT DT}.
Implicit Types (d sub rest r : dict KT VT DT) (p q parent : tuple KT)
  (v : value KT VT DT) (k : KT) (fd items : flatdict KT VT DT) (typ t : DT).

(** *** Walking a key path *)

Lemma lookup_path_single d k : lookup_path d [k] = get d k.
Proof. simpl. now destruct (get d k). Qed.

Lemma lookup_path_other k w rest k' q :
  k' <> k -> lookup_path ((k, w) :: rest) (k' :: q) = lookup_path rest (k' :: q).
Proof.
  intros Hne. simpl. destruct (key_eq_dec k' k); [congruence | reflexivity].
Qed.

Lemma lookup_path_here k w rest q :
  q <> [] ->
  lookup_path ((k, w) :: rest) (k :: q) =
  match w with Dict _ sub => lookup_path sub q | Leaf _ => None end.
Proof.
  intros Hq. simpl. destruct (key_eq_dec k k); [|congruence].
  destruct q; [congruence | reflexivity].
Qed.

Lemma lookup_path_here_single k w rest :
  lookup_path ((k, w) :: rest) [k] = Some w.
Proof. simpl. destruct (key_eq_dec k k); [reflexivity | congruence]. Qed.

(** A key that is looked up with success is a key of the dictionary. *)
Lemma lookup_path_key rest k q w :
  lookup_path rest (k :: q) = Some w -> In k (keys rest).
Proof.
  simpl. destruct (get rest k) eqn:E; [|discriminate]. intros _.
  apply get_Some_split in E. destruct E as (d1 & d2 & -> & _).
  rewrite keys_app. apply in_or_app. right. now left.
Qed.

(** The entries of [leaves] are the key paths that lead to a leaf. *)
Lemma leaves_lookup d :
  well_formed d ->
  forall p v,
    In (p, v) (leaves d) <-> is_leaf v /\ lookup_path d p = Some v.
Proof.
  induction 1 as [|k x rest Hk _ IH|k t sub rest Hk _ IHsub _ IH]; intros p v.
  - simpl. split; [tauto|]. intros [_ E]. destruct p; discriminate.
  - rewrite leaves_cons_leaf. simpl In. rewrite IH. split.
    + intros [E|[Hleaf Hlook]].
      * inversion E; subst. split; [exact I | apply lookup_path_here_single].
      * split; [exact Hleaf|]. destruct p as [|k' q]; [discriminate|].
        rewrite lookup_path_other; [exact Hlook|].
        intros ->. apply Hk. eapply lookup_path_key; eassumption.
    + intros [Hleaf Hlook]. destruct p as [|k' q]; [discriminate|].
      destruct (key_eq_dec k' k) as [->|Hne].
      * destruct q as [|k2 q].
        -- rewrite lookup_path_here_single in Hlook. inversion Hlook. now left.
        -- rewrite lookup_path_here in Hlook by discriminate. discriminate.
      * rewrite lookup_path_other in Hlook by exact Hne. now right.
  - rewrite leaves_cons_dict, in_app_iff, IH. split.
    + intros [Hin|[Hleaf Hlook]].
      * apply in_map_iff in Hin. destruct Hin as ([q w] & E & Hin).
        unfold under in E. simpl in E. inversion E; subst.
        assert (Hq : q <> []) by (eapply leaves_nonempty_key; eassumption).
        apply IHsub in Hin. destruct Hin as [Hleaf Hlook].
        split; [exact Hleaf|]. now rewrite lookup_path_here.
      * split; [exact Hleaf|]. destruct p as [|k' q]; [discriminate|].
        rewrite lookup_path_other; [exact Hlook|].
        intros ->. apply Hk. eapply lookup_path_key; eassumption.
    + intros [Hleaf Hlook]. destruct p as [|k' q]; [discriminate|].
      destruct (key_eq_dec k' k) as [->|Hne].
      * destruct q as [|k2 q].
        -- rewrite lookup_path_here_single in Hlook. inversion Hlook; subst.
           contradiction.
        -- rewrite lookup_path_here in Hlook by discriminate.
           left. apply in_map_iff. exists (k2 :: q, v). split; [reflexivity|].
           apply IHsub. now split.
      * rewrite lookup_path_other in Hlook by exact Hne. now right.
Qed.

(** Nothing is found beyond a leaf. *)
Lemma lookup_path_beyond_leaf p : forall d x s,
  lookup_path d p = Some (Leaf x) -> s <> [] -> lookup_path d (p ++ s) = None.
Proof.
  induction p as [|k p IH]; intros d x s Hlook Hs; [discriminate|].
  simpl in Hlook |- *. destruct (get d k) as [w|]; [|reflexivity].
  destruct p as [|k' p'].
  - inversion Hlook; subst. simpl. destruct s; [congruence | reflexivity].
  - simpl app. destruct w as [y|t sub]; [reflexivity|].
    apply (IH sub x s Hlook Hs).
Qed.

Lemma leaves_prefix_free d : well_formed d -> prefix_free (keys (leaves d)).
Proof.
  intros Hwf p q Hp Hq [s ->].
  apply in_map_iff in Hp. destruct Hp as ([p' v] & E & Hp). simpl in E; subst p'.
  apply in_map_iff in Hq. destruct Hq as ([q' w] & E & Hq). simpl in E; subst q'.
  apply (leaves_lookup Hwf) in Hp. apply (leaves_lookup Hwf) in Hq.
  destruct Hp as [Hleaf Hp]. destruct Hq as [_ Hq].
  destruct v as [x|t sub]; [|contradiction].
  destruct s as [|k s]; [now rewrite app_nil_r|].
  rewrite (@lookup_path_beyond_leaf p d x (k :: s) Hp) in Hq; discriminate.
Qed.

(** *** Dictionaries without a leaf *)

Lemma prune_value_Dict t d : prune_value (Dict t d) = Dict t (prune d).
Proof. reflexivity. Qed.

Lemma prune_leaf k x rest : prune ((k, Leaf x) :: rest) = (k, Leaf x) :: prune rest.
Proof. reflexivity. Qed.

Lemma prune_dict k t sub rest :
  prune ((k, Dict t sub) :: rest) =
  match prune sub with
  | [] => prune rest
  | _ :: _ => (k, Dict t (prune sub)) :: prune rest
  end.
Proof.
  change (prune ((k, Dict t sub) :: rest))
    with (match prune_value (Dict t sub) with
          | Dict _ [] => prune rest
          | kept => (k, kept) :: prune rest
          end).
  rewrite prune_value_Dict. now destruct (prune sub).
Qed.

Lemma prune_keys d : well_formed d -> incl (keys (prune d)) (keys d).
Proof.
  induction 1 as [|k x rest Hk _ IH|k t sub rest Hk _ _ _ IH].
  - intros k [].
  - rewrite prune_leaf. simpl. intros k' [E|Hin]; [now left | right; now apply IH].
  - rewrite prune_dict. destruct (prune sub); simpl.
    + intros k' Hin. right. now apply IH.
    + intros k' [E|Hin]; [now left | right; now apply IH].
Qed.

Lemma prune_well_formed d : well_formed d -> well_formed (prune d).
Proof.
  induction 1 as [|k x rest Hk Hrest IH|k t sub rest Hk Hsub IHsub Hrest IH].
  - constructor.
  - rewrite prune_leaf. constructor; [|exact IH].
    intros Hin. apply Hk. now apply (prune_keys Hrest).
  - rewrite prune_dict. destruct (prune sub) eqn:E; [exact IH|].
    constructor; [|exact IHsub|exact IH].
    intros Hin. apply Hk. now apply (prune_keys Hrest).
Qed.

Lemma prune_no_empty_dict d : well_formed d -> no_empty_dict (prune d).
Proof.
  induction 1 as [|k x rest Hk Hrest IH|k t sub rest Hk Hsub IHsub Hrest IH].
  - constructor.
  - rewrite prune_leaf. now constructor.
  - rewrite prune_dict. destruct (prune sub) eqn:E; [exact IH|].
    constructor; [discriminate | exact IHsub | exact IH].
Qed.

Lemma prune_all_classes (P : DT -> Prop) d :
  all_classes P d -> all_classes P (prune d).
Proof.
  induction 1 as [|k x rest _ IH|k t sub rest Ht _ IHsub _ IH].
  - constructor.
  - rewrite prune_leaf. now constructor.
  - rewrite prune_dict. destruct (prune sub) eqn:E; [exact IH|].
    now constructor.
Qed.

Lemma prune_leaves d : well_formed d -> leaves (prune d) = leaves d.
Proof.
  induction 1 as [|k x rest Hk Hrest IH|k t sub rest Hk Hsub IHsub Hrest IH].
  - reflexivity.
  - now rewrite prune_leaf, !leaves_cons_leaf, IH.
  - rewrite prune_dict, (leaves_cons_dict k t sub), <- IHsub, <- IH.
    destruct (prune sub) eqn:E; [reflexivity|]. now rewrite leaves_cons_dict.
Qed.

Lemma prune_nothing d : no_empty_dict d -> prune d = d.
Proof.
  induction 1 as [|k x rest _ IH|k t sub rest Hsub _ IHsub _ IH].
  - reflexivity.
  - now rewrite prune_leaf, IH.
  - rewrite prune_dict, IHsub, IH. destruct sub; [congruence | reflexivity].
Qed.

(** *** A key that continues the key of a stored object that is no dict *)

Lemma split_last_cons k s :
  exists pre l,
    split_last (k :: s) = Some (pre, l) /\ (pre = [] <-> s = []).
Proof.
  revert k. induction s as [|k' s IH]; intros k.
  - exists [], k. split; [reflexivity | tauto].
  - destruct (IH k') as (pre & l & E & _).
    exists (k :: pre), l. split.
    + change (split_last (k :: k' :: s))
        with (match split_last (k' :: s) with
              | None => Some ([], k)
              | Some (prefix, last) => Some (k :: prefix, last)
              end).
      now rewrite E.
    + split; discriminate.
Qed.

(** The assignment reaches the object and goes on in it. *)
Lemma assign_through_leaf typ p : forall r x k s v pre last e,
  lookup_path r p = Some (Leaf x) ->
  split_last (k :: s) = Some (pre, last) ->
  leaf_walk typ x pre last v = Raise e ->
  assign typ r (p ++ k :: s) v = Raise e.
Proof.
  induction p as [|k0 p IH]; intros r x k s v pre last e Hlook Hsplit Hwalk;
    [discriminate|].
  simpl in Hlook. destruct (get r k0) as [w|] eqn:Hget; [|discriminate].
  destruct p as [|k1 p'].
  - inversion Hlook; subst w. simpl app.
    rewrite (@assign_cons_leaf _ _ _ _ _ typ r k0 (k :: s) v x pre last Hsplit Hget).
    now rewrite Hwalk.
  - destruct w as [y|t sub]; [discriminate|].
    change ((k0 :: k1 :: p') ++ k :: s) with (k0 :: ((k1 :: p') ++ k :: s)).
    rewrite (@assign_cons _ _ _ _ _ typ r k0 ((k1 :: p') ++ k :: s) v t sub);
      [| discriminate | now rewrite Hget].
    now rewrite (IH sub x k s v pre last e Hlook Hsplit Hwalk).
Qed.

(** ** What [dict_to_flatdict] and [flatdict_to_dict] do in general *)

(** X1: for a nested dictionary that, as every dictionary in it, is of
    a class that builds from pairs as [dict] does, the flat dictionary
    holds an entry [(p, v)] exactly when [v] is not a dictionary and is
    what walking the keys of [p] in the nested dictionary leads to. *)
Theorem flat_entries_are_leaf_paths typ d :
  builds_from_pairs typ -> plain d -> well_formed d ->
  exists fd,
    dict_to_flatdict typ d None = Ok fd /\
    forall p v, In (p, v) fd <-> is_leaf v /\ lookup_path d p = Some v.
Proof.
  intros Htyp Hplain Hwf. exists (leaves d).
  split; [now apply dict_to_flatdict_leaves | apply (leaves_lookup Hwf)].
Qed.

(** X2: for such a dictionary, flattening under a parent key path is
    flattening without one and putting the parent in front of every
    key. *)
Theorem flatten_under_parent typ d parent :
  builds_from_pairs typ -> plain d -> well_formed d ->
  exists fd,
    dict_to_flatdict typ d None = Ok fd /\
    dict_to_flatdict typ d (Some parent) = Ok (map (below parent) fd).
Proof.
  intros Htyp Hplain Hwf. exists (leaves d).
  split; [now apply dict_to_flatdict_leaves|].
  unfold dict_to_flatdict. now apply flat_items_leaves.
Qed.

(** X3: flattening and unflattening such a dictionary, also one that
    holds dictionaries without a leaf, gives the dictionary without
    these, its nested dictionaries made instances of the root's class,
    and nothing else changes: the dictionary without them flattens to
    the same flat dictionary. *)
Theorem flatten_unflatten_prunes typ d :
  builds_from_pairs typ -> plain d -> well_formed d ->
  exists fd,
    dict_to_flatdict typ d None = Ok fd /\
    flatdict_to_dict typ fd = Ok (retype typ (prune d)) /\
    well_formed (prune d) /\ no_empty_dict (prune d) /\
    dict_to_flatdict typ (prune d) None = Ok fd.
Proof.
  intros Htyp Hplain Hwf.
  pose proof (prune_well_formed Hwf) as Hwp.
  pose proof (prune_no_empty_dict Hwf) as Hnp.
  exists (leaves d). split; [now apply dict_to_flatdict_leaves|].
  split; [|split; [exact Hwp | split; [exact Hnp|]]].
  - rewrite <- (prune_leaves Hwf). unfold flatdict_to_dict.
    now rewrite (unflatten_leaves typ Hwp Hnp [] (fun _ _ Hin => Hin)).
  - rewrite <- (prune_leaves Hwf).
    apply dict_to_flatdict_leaves; [exact Htyp | exact Hwp |].
    now apply prune_all_classes.
Qed.

(** X4: what [dict_to_flatdict] returns for such a dictionary is of
    the shape [flatdict_to_dict] takes back: distinct, non-empty keys none
    of which continues another, and no dictionary among the values. *)
Theorem flat_dict_shape typ d :
  builds_from_pairs typ -> plain d -> well_formed d ->
  exists fd,
    dict_to_flatdict typ d None = Ok fd /\
    NoDup (keys fd) /\
    (forall p v, In (p, v) fd -> p <> [] /\ is_leaf v) /\
    prefix_free (keys fd).
Proof.
  intros Htyp Hplain Hwf. exists (leaves d).
  split; [now apply dict_to_flatdict_leaves|]. split; [|split].
  - now apply leaves_NoDup.
  - intros p v Hin. split.
    + eapply leaves_nonempty_key; eassumption.
    + now apply (leaves_lookup Hwf) in Hin.
  - now apply leaves_prefix_free.
Qed.

(** X5: after [flatdict_to_dict] of a flat dictionary of that shape,
    of whatever class, walking a key path of the result leads to a
    non-dictionary exactly when the flat dictionary has that entry; the
    dictionaries nested in the result are of the class of the flat
    one. *)
Theorem unflatten_lookup typ fd :
  NoDup (keys fd) ->
  (forall p v, In (p, v) fd -> p <> [] /\ is_leaf v) ->
  prefix_free (keys fd) ->
  exists d,
    flatdict_to_dict typ fd = Ok d /\ well_formed d /\ no_empty_dict d /\
    uniform typ d /\
    forall p v, In (p, v) fd <-> is_leaf v /\ lookup_path d p = Some v.
Proof.
  intros Hnd Hshape Hfree.
  destruct (@unflatten_prefix_free _ _ _ _ _ typ fd [])
    as (d & Hloop & Hwf & Hne & Hun & Hperm);
    try assumption; try constructor.
  - intros p _ [].
  - exists d. split; [exact Hloop|]. split; [exact Hwf|]. split; [exact Hne|].
    split; [exact Hun|].
    intros p v. rewrite <- (leaves_lookup Hwf). simpl in Hperm.
    split; intros Hin.
    + exact (Permutation_in _ (Permutation_sym Hperm) Hin).
    + exact (Permutation_in _ Hperm Hin).
Qed.

(** X6: on keys of one segment [flatdict_to_dict] builds the
    dictionary of the pairs: a key that comes again keeps its place and
    takes the later value, and a value that is a dictionary is stored as
    it is. *)
Theorem unflatten_single_keys typ (items : dict KT VT DT) :
  flatdict_to_dict typ (map (fun kv => ([fst kv], snd kv)) items) =
  Ok (of_items items).
Proof.
  unfold flatdict_to_dict, of_items. generalize (@nil (KT * value KT VT DT)).
  induction items as [|[k v] items IH]; intros r; [reflexivity|].
  simpl map. rewrite loop_cons, assign_single. cbn [bind]. apply IH.
Qed.

(** X7: after the entries of a flat dictionary of the shape
    [dict_to_flatdict] generates, [flatdict_to_dict] raises [IndexError]
    at an empty key tuple; at a key that continues the key of one of
    these entries the walk goes on in the object stored there, and an
    exception of that object's [setdefault] or item assignment is the
    exception of [flatdict_to_dict]. *)
Theorem unflatten_errors typ fd1 fd2 v :
  NoDup (keys fd1) ->
  (forall p w, In (p, w) fd1 -> p <> [] /\ is_leaf w) ->
  prefix_free (keys fd1) ->
  flatdict_to_dict typ (fd1 ++ ([], v) :: fd2) = Raise IndexError /\
  forall p x k s pre last e,
    In (p, Leaf x) fd1 ->
    split_last (k :: s) = Some (pre, last) ->
    leaf_walk typ x pre last v = Raise e ->
    flatdict_to_dict typ (fd1 ++ (p ++ k :: s, v) :: fd2) = Raise e.
Proof.
  intros Hnd Hshape Hfree.
  assert (Hstored : exists r,
    flatdict_to_dict_loop typ fd1 [] = Ok r /\ well_formed r /\
    Permutation (leaves r) fd1).
  { destruct (@unflatten_prefix_free _ _ _ _ _ typ fd1 [])
      as (r & Hloop & Hwf & _ & _ & Hperm);
      try assumption; try constructor.
    - intros p _ [].
    - now exists r. }
  destruct Hstored as (r & Hloop & Hwf & Hperm).
  unfold flatdict_to_dict. split.
  - rewrite loop_app, Hloop. reflexivity.
  - intros p x k s pre last e Hin Hsplit Hwalk.
    assert (Hlook : lookup_path r p = Some (Leaf x)).
    { apply (leaves_lookup Hwf). simpl in Hperm.
      exact (Permutation_in _ (Permutation_sym Hperm) Hin). }
    rewrite loop_app, Hloop. cbn [bind]. rewrite loop_cons.
    now rewrite (@assign_through_leaf typ p r x k s v pre last e Hlook Hsplit Hwalk).
Qed.
End FlattenMore.

Import samples.
Open Scope string_scope.
#[local] Existing Instance integers.

Lemma nested_example_well_formed : well_formed nested_example.
Proof.
  unfold nested_example. repeat constructor; simpl; intuition discriminate.
Qed.

Lemma flat_entries_are_leaf_paths_witness :
  builds_from_pairs (objects := integers (KT := string)) dict_ /\
  plain nested_example /\ well_formed nested_example /\
  exists fd,
    dict_to_flatdict dict_ nested_example None = Ok fd /\
    forall p v,
      In (p, v) fd <-> is_leaf v /\ lookup_path nested_example p = Some v.
Proof.
  exact (conj dict_builds_from_pairs (conj nested_example_plain
    (conj nested_example_well_formed
      (flat_entries_are_leaf_paths dict_builds_from_pairs nested_example_plain
         nested_example_well_formed)))).
Defined.

Example nested_example_entry :
  exists fd,
    dict_to_flatdict dict_ nested_example None = Ok fd /\
    In (["b"; "d"; "e"], Leaf 3) fd /\
    lookup_path nested_example ["b"; "d"; "e"] = Some (Leaf 3).
Proof. eexists. split; [reflexivity|]. split; [simpl; tauto | reflexivity]. Qed.

Lemma flatten_under_parent_witness :
  builds_from_pairs (objects := integers (KT := string)) dict_ /\
  plain nested_example /\ well_formed nested_example /\
  exists fd,
    dict_to_flatdict dict_ nested_example None = Ok fd /\
    dict_to_flatdict dict_ nested_example (Some ["root"]) =
    Ok (map (below ["root"]) fd).
Proof.
  exact (conj dict_builds_from_pairs (conj nested_example_plain
    (conj nested_example_well_formed
      (flatten_under_parent ["root"] dict_builds_from_pairs
         nested_example_plain nested_example_well_formed)))).
Defined.

Lemma hollow_example_well_formed : well_formed hollow_example.
Proof.
  unfold hollow_example. repeat constructor; simpl; intuition discriminate.
Qed.

Lemma hollow_example_plain : plain hollow_example.
Proof.
  unfold hollow_example. repeat constructor; apply dict_builds_from_pairs.
Qed.

Lemma flatten_unflatten_prunes_witness :
  builds_from_pairs (objects := integers (KT := string)) dict_ /\
  plain hollow_example /\ well_formed hollow_example /\
  exists fd,
    dict_to_flatdict dict_ hollow_example None = Ok fd /\
    flatdict_to_dict dict_ fd = Ok (retype dict_ (prune hollow_example)) /\
    well_formed (prune hollow_example) /\
    no_empty_dict (prune hollow_example) /\
    dict_to_flatdict dict_ (prune hollow_example) None = Ok fd.
Proof.
  exact (conj dict_builds_from_pairs (conj hollow_example_plain
    (conj hollow_example_well_formed
      (flatten_unflatten_prunes dict_builds_from_pairs hollow_example_plain
         hollow_example_well_formed)))).
Defined.

Example hollow_example_pruned :
  prune hollow_example = [("c", Leaf 1)] /\
  retype dict_ (prune hollow_example) = [("c", Leaf 1)].
Proof. split; reflexivity. Qed.

Lemma flat_dict_shape_witness :
  builds_from_pairs (objects := integers (KT := string)) dict_ /\
  plain nested_example /\ well_formed nested_example /\
  exists fd,
    dict_to_flatdict dict_ nested_example None = Ok fd /\
    NoDup (keys fd) /\
    (forall p v, In (p, v) fd -> p <> [] /\ is_leaf v) /\
    prefix_free (keys fd).
Proof.
  exact (conj dict_builds_from_pairs (conj nested_example_plain
    (conj nested_example_well_formed
      (flat_dict_shape dict_builds_from_pairs nested_example_plain
         nested_example_well_formed)))).
Defined.

Lemma flat_example_shape :
  NoDup (keys flat_example) /\
  (forall p v, In (p, v) flat_example -> p <> [] /\ is_leaf v) /\
  prefix_free (keys flat_example).
Proof.
  split; [|split].
  - unfold flat_example. repeat constructor; simpl; intuition discriminate.
  - intros p v Hin. simpl in Hin.
    destruct Hin as [E|[E|[E|[]]]]; inversion E; subst; simpl; split;
      [discriminate | exact I | discriminate | exact I | discriminate | exact I].
  - intros p q Hp Hq [s E]. simpl in Hp, Hq.
    destruct Hp as [<-|[<-|[<-|[]]]]; destruct Hq as [<-|[<-|[<-|[]]]];
      try reflexivity; simpl in E; inversion E.
Qed.

Lemma unflatten_lookup_witness :
  NoDup (keys flat_example) /\
  (forall p v, In (p, v) flat_example -> p <> [] /\ is_leaf v) /\
  prefix_free (keys flat_example) /\
  exists d,
    flatdict_to_dict defaultdict flat_example = Ok d /\ well_formed d /\
    no_empty_dict d /\ uniform defaultdict d /\
    forall p v, In (p, v) flat_example <->
                is_leaf v /\ lookup_path d p = Some v.
Proof.
  destruct flat_example_shape as (Hnd & Hshape & Hfree).
  exact (conj Hnd (conj Hshape (conj Hfree
           (unflatten_lookup defaultdict flat_example Hnd Hshape Hfree)))).
Defined.

Lemma unflatten_errors_witness :
  let fd1 : flatdict string nat dict_type := [(["a"], Leaf 1)] in
  NoDup (keys fd1) /\
  (forall p w, In (p, w) fd1 -> p <> [] /\ is_leaf w) /\
  prefix_free (keys fd1) /\
  flatdict_to_dict dict_ (fd1 ++ [([], Leaf 2)])%list = Raise IndexError /\
  (In (["a"], Leaf 1) fd1 /\
   split_last ["b"] = Some ([], "b") /\
   leaf_walk (Objects := integers (KT := string)) dict_ 1 [] "b" (Leaf 2)
   = Raise (TypeError "'int' object does not support item assignment") /\
   flatdict_to_dict dict_ (fd1 ++ [((["a"] ++ ["b"])%list, Leaf 2)])%list
   = Raise (TypeError "'int' object does not support item assignment")) /\
  (split_last ["b"; "c"] = Some (["b"], "c") /\
   leaf_walk (Objects := integers (KT := string)) dict_ 1 ["b"] "c" (Leaf 2)
   = Raise (AttributeError "'int' object has no attribute 'setdefault'") /\
   flatdict_to_dict dict_ (fd1 ++ [((["a"] ++ ["b"; "c"])%list, Leaf 2)])%list
   = Raise (AttributeError "'int' object has no attribute 'setdefault'")).
Proof.
  intros fd1.
  assert (Hnd : NoDup (keys fd1)) by (repeat constructor; simpl; tauto).
  assert (Hshape : forall p w, In (p, w) fd1 -> p <> [] /\ is_leaf w).
  { intros p w [E|[]]. inversion E; subst. split; [discriminate | exact I]. }
  assert (Hfree : prefix_free (keys fd1)).
  { intros p q [<-|[]] [<-|[]] _. reflexivity. }
  assert (Hin : In (["a"], Leaf 1) fd1) by (now left).
  assert (Hone : split_last ["b"] = Some ([], "b")) by reflexivity.
  assert (Htwo : split_last ["b"; "c"] = Some (["b"], "c")) by reflexivity.
  assert (Hassign :
    leaf_walk (Objects := integers (KT := string)) dict_ 1 [] "b" (Leaf 2)
    = Raise (TypeError "'int' object does not support item assignment"))
    by reflexivity.
  assert (Hdefault :
    leaf_walk (Objects := integers (KT := string)) dict_ 1 ["b"] "c" (Leaf 2)
    = Raise (AttributeError "'int' object has no attribute 'setdefault'"))
    by reflexivity.
  pose proof (unflatten_errors dict_ fd1 [] (Leaf 2) Hnd Hshape Hfree)
    as [Hempty Hthrough].
  split; [exact Hnd|]. split; [exact Hshape|]. split; [exact Hfree|].
  split; [exact Hempty|]. split.
  - split; [exact Hin|]. split; [exact Hone|]. split; [exact Hassign|].
    exact (Hthrough ["a"] 1 "b" [] [] "b" _ Hin Hone Hassign).
  - split; [exact Htwo|]. split; [exact Hdefault|].
    exact (Hthrough ["a"] 1 "b" ["c"] ["b"] "c" _ Hin Htwo Hdefault).
Defined.
End flatten_more.

(* ================================================================== *)
(** * More on [extract_instances] and [listrepr] *)
(* ================================================================== *)

Module extract_more.
Import pydict pydict_facts collections extract_facts.
Local Open Scope list_scope.

Section ExtractMore.
Context {ty obj : Type} `{Hashable ty}.
Variable isinstance : obj -> ty -> bool.
Implicit Types (ret : list (ty * list obj)) (t : ty) (o : obj)
  (types : list ty) (objects : list obj).

Lemma extract_one_count types : forall ret o t,
  defaultdict_getitem (extract_one isinstance types ret o) t =
  defaultdict_getitem ret t ++
  (if isinstance o t then repeat o (count_occ key_eq_dec types t) else []).
Proof.
  induction types as [|t0 types IH]; intros ret o t.
  - simpl. destruct (isinstance o t); now rewrite app_nil_r.
  - rewrite extract_one_cons, IH. simpl count_occ.
    destruct (key_eq_dec t0 t) as [->|Hne].
    + destruct (isinstance o t) eqn:E; [|reflexivity].
      rewrite getitem_append. destruct (key_eq_dec t t); [|congruence].
      now rewrite <- app_assoc.
    + destruct (isinstance o t0); [|reflexivity].
      rewrite getitem_append.
      destruct (key_eq_dec t t0); [congruence | reflexivity].
Qed.

Lemma extract_all_count types : forall objects ret t,
  defaultdict_getitem (fold_left (extract_one isinstance types) objects ret) t =
  defaultdict_getitem ret t ++
  flat_map
    (fun o =>
       if isinstance o t then repeat o (count_occ key_eq_dec types t) else [])
    objects.
Proof.
  induction objects as [|o objects IH]; intros ret t; simpl.
  - now rewrite app_nil_r.
  - now rewrite IH, extract_one_count, <- app_assoc.
Qed.

Lemma setitem_NoDup (d : list (ty * list obj)) t l :
  NoDup (keys d) -> NoDup (keys (setitem d t l)).
Proof.
  induction d as [|[t0 l0] d IH]; simpl; intros Hnd.
  - repeat constructor. tauto.
  - inversion Hnd as [|? ? Hnew Hrest]; subst.
    destruct (key_eq_dec t t0) as [->|Hne]; simpl; [now constructor|].
    constructor; [|now apply IH].
    intros Hin. apply keys_setitem in Hin. destruct Hin as [Hin|E]; congruence.
Qed.

Lemma extract_all_NoDup types : forall objects ret,
  NoDup (keys ret) ->
  NoDup (keys (fold_left (extract_one isinstance types) objects ret)).
Proof.
  assert (Hone : forall o ts ret,
    NoDup (keys ret) -> NoDup (keys (extract_one isinstance ts ret o))).
  { intros o. induction ts as [|t0 ts IH]; intros ret Hnd; [exact Hnd|].
    rewrite extract_one_cons. apply IH.
    destruct (isinstance o t0); [now apply setitem_NoDup | exact Hnd]. }
  induction objects as [|o objects IH]; intros ret Hnd; [exact Hnd|].
  simpl. apply IH, Hone, Hnd.
Qed.

(** X8: whatever the tuple of types, a type in it that [o] is an
    instance of gets [o] once for each time the type stands in the tuple;
    the objects keep their order, and the mapping holds each type under
    one key. *)
Theorem extract_instances_repeated objects types :
  List.length types <> 1 ->
  exists ret,
    extract_instances isinstance objects (Collection types) = ByType ret /\
    NoDup (keys ret) /\
    forall t,
      defaultdict_getitem ret t =
      flat_map
        (fun o =>
           if isinstance o t then repeat o (count_occ key_eq_dec types t)
           else [])
        objects.
Proof.
  intros Hlen.
  exists (fold_left (extract_one isinstance types) objects []).
  split; [|split].
  - unfold extract_instances. simpl ensure_iterable. cbv zeta.
    destruct types as [|t0 [|t1 types]]; simpl in Hlen; congruence.
  - apply extract_all_NoDup. constructor.
  - intros t. now rewrite extract_all_count.
Qed.

(** X9: asked for one type that every object is an instance of, as
    the default [object] is, [extract_instances] returns all the objects
    in their order; asked for one type that none is an instance of, or for
    no object at all, it returns the empty list. *)
Theorem extract_instances_all_or_none objects t :
  ((forall o, In o objects -> isinstance o t = true) ->
   extract_instances isinstance objects (Single t) = Instances objects) /\
  ((forall o, In o objects -> isinstance o t = false) ->
   extract_instances isinstance objects (Single t) = Instances []).
Proof.
  assert (Hget : extract_instances isinstance objects (Single t) =
    Instances
      (flat_map (fun o => if isinstance o t then [o] else []) objects)).
  { unfold extract_instances. simpl ensure_iterable. cbv beta iota zeta.
    rewrite extract_all_count. simpl count_occ.
    now destruct (key_eq_dec t t). }
  rewrite Hget. clear Hget.
  split; intros Hall; f_equal.
  - induction objects as [|o objects IH]; [reflexivity|].
    simpl. rewrite (Hall o) by now left. simpl. f_equal.
    apply IH. intros o' Hin. apply Hall. now right.
  - induction objects as [|o objects IH]; [reflexivity|].
    simpl. rewrite (Hall o) by now left. simpl.
    apply IH. intros o' Hin. apply Hall. now right.
Qed.
End ExtractMore.

Lemma string_append_assoc (a b c : string) :
  ((a ++ b) ++ c)%string = (a ++ b ++ c)%string.
Proof. induction a as [|ch a IH]; simpl; [reflexivity | now rewrite IH]. Qed.

Section ListreprFacts.
Context {T : Type}.
Variable repr : T -> string.

(** X10: [listrepr] of no object is the empty string and of one object
    its [repr], without a separator; of two non-empty lists put together
    it is the [listrepr] of the first, the separator (a space when none is
    given) and the [listrepr] of the second. *)
Theorem listrepr_app (sep : option string) :
  listrepr repr [] sep = ""%string /\
  (forall x, listrepr repr [x] sep = repr x) /\
  (forall xs ys, xs <> [] -> ys <> [] ->
     listrepr repr (xs ++ ys) sep =
     (listrepr repr xs sep
      ++ match sep with Some s => s | None => " " end
      ++ listrepr repr ys sep)%string).
Proof.
  split; [reflexivity|]. split; [reflexivity|].
  intros xs ys Hxs Hys. unfold listrepr.
  set (s := match sep with Some s => s | None => " "%string end).
  destruct ys as [|y ys]; [congruence|]. clear Hys.
  induction xs as [|x xs IH]; [congruence|].
  destruct xs as [|x' xs].
  - reflexivity.
  - change (String.concat s (map repr ((x :: x' :: xs) ++ y :: ys)))
      with (repr x ++ s ++ String.concat s (map repr ((x' :: xs) ++ y :: ys)))%string.
    rewrite IH by discriminate.
    change (String.concat s (map repr (x :: x' :: xs)))
      with (repr x ++ s ++ String.concat s (map repr (x' :: xs)))%string.
    now rewrite !string_append_assoc.
Qed.
End ListreprFacts.

Import samples.

Lemma extract_instances_repeated_witness :
  List.length [int; int; str] <> 1 /\
  exists ret,
    extract_instances isinstance mixed_objects (Collection [int; int; str])
    = ByType ret /\
    NoDup (keys ret) /\
    forall t,
      defaultdict_getitem ret t =
      flat_map
        (fun o =>
           if isinstance o t
           then repeat o (count_occ key_eq_dec [int; int; str] t)
           else [])
        mixed_objects.
Proof.
  assert (Hlen : List.length [int; int; str] <> 1) by discriminate.
  exact (conj Hlen
    (extract_instances_repeated isinstance mixed_objects [int; int; str] Hlen)).
Defined.

Lemma extract_instances_all_or_none_witness :
  (forall o, In o [VInt 1; VBool true] -> isinstance o int = true) /\
  extract_instances isinstance [VInt 1; VBool true] (Single int)
  = Instances [VInt 1; VBool true] /\
  (forall o, In o [VInt 1; VBool true] -> isinstance o str = false) /\
  extract_instances isinstance [VInt 1; VBool true] (Single str)
  = Instances [].
Proof.
  assert (Hall : forall o, In o [VInt 1; VBool true] -> isinstance o int = true).
  { intros o [<-|[<-|[]]]; reflexivity. }
  assert (Hnone : forall o, In o [VInt 1; VBool true] -> isinstance o str = false).
  { intros o [<-|[<-|[]]]; reflexivity. }
  split; [exact Hall|]. split.
  - exact (proj1 (extract_instances_all_or_none isinstance
                    [VInt 1; VBool true] int) Hall).
  - split; [exact Hnone|].
    exact (proj2 (extract_instances_all_or_none isinstance
                    [VInt 1; VBool true] str) Hnone).
Defined.

Lemma listrepr_app_witness :
  let repr := fun s : string => ("<" ++ s ++ ">")%string in
  let ab := ["a"%string; "b"%string] in
  let c := ["c"%string] in
  ab <> [] /\ c <> [] /\
  listrepr repr (ab ++ c) (Some ", "%string) =
  (listrepr repr ab (Some ", ") ++ ", " ++ listrepr repr c (Some ", "))%string.
Proof.
  intros repr ab c.
  assert (H1 : ab <> []) by discriminate.
  assert (H2 : c <> []) by discriminate.
  exact (conj H1 (conj H2
    (proj2 (proj2 (listrepr_app repr (Some ", "%string))) ab c H1 H2))).
Defined.
End extract_more.

(* ================================================================== *)
(** * More on [batched_iterable] *)
(* ================================================================== *)

Module batched_more.
Import collections batched_facts.
Local Open Scope list_scope.

Section BatchedMore.
Context {T S : Type}.
Variable next : S -> option (T * S).
Implicit Types (it : S) (l : list T) (batches : list (list T)).

(** The number of the batches and each of them. *)
Lemma batched_loop_slices size :
  0 < size ->
  forall fuel it l,
  drains next it l -> List.length l < fuel ->
  exists batches,
    batched_loop next fuel it size = Some batches /\
    List.length batches = (List.length l + size - 1) / size /\
    forall i, i < List.length batches ->
      nth i batches [] = firstn size (skipn (i * size) l).
Proof.
  intros Hsize. induction fuel as [|fuel IH]; intros it l Hdr Hfuel; [lia|].
  destruct (islice_drains size Hdr) as (it' & Hslice & Hdr').
  cbn [batched_loop]. rewrite Hslice.
  destruct l as [|x l].
  - rewrite firstn_nil. exists []. repeat split.
    + simpl. symmetry. apply Nat.div_small. lia.
    + simpl. lia.
  - destruct size as [|n]; [lia|]. cbn [firstn skipn] in *.
    destruct (IH it' (skipn n l) Hdr') as (batches & -> & Hcount & Hnth).
    { rewrite length_skipn. simpl in Hfuel. lia. }
    exists ((x :: firstn n l) :: batches). split; [reflexivity|]. split.
    + simpl List.length. rewrite Hcount, length_skipn.
      set (m := List.length l).
      replace (Datatypes.S m + Datatypes.S n - 1) with (m + 1 * Datatypes.S n) by lia.
      rewrite Nat.div_add by lia.
      destruct (Nat.le_gt_cases n m) as [Hle|Hgt].
      * replace (m - n + Datatypes.S n - 1) with m by lia. lia.
      * replace (m - n + Datatypes.S n - 1) with n by lia.
        rewrite !Nat.div_small by lia. reflexivity.
    + intros [|i] Hi; [reflexivity|].
      simpl nth. rewrite Hnth by (simpl in Hi; lia).
      rewrite skipn_skipn. f_equal.
      replace (Datatypes.S i * Datatypes.S n) with (Datatypes.S (i * Datatypes.S n + n)) by lia.
      reflexivity.
Qed.

(** An endless iterator fills every slice. *)
Lemma batched_loop_endless (P : S -> Prop) size :
  (forall s, P s -> exists x s', next s = Some (x, s') /\ P s') ->
  0 < size ->
  forall fuel it, P it -> batched_loop next fuel it size = None.
Proof.
  intros Hstep Hsize.
  assert (Hslice : forall stop it, P it ->
    exists xs it', islice next it stop = (xs, it') /\
                   List.length xs = stop /\ P it').
  { induction stop as [|stop IH]; intros it Hit.
    - exists [], it. now repeat split.
    - destruct (Hstep it Hit) as (x & it1 & Hnext & Hit1).
      destruct (IH it1 Hit1) as (xs & it' & E & Hlen & Hit').
      exists (x :: xs), it'. simpl. rewrite Hnext, E.
      repeat split; [simpl; now rewrite Hlen | exact Hit']. }
  induction fuel as [|fuel IH]; intros it Hit; [reflexivity|].
  destruct (Hslice size it Hit) as (xs & it' & E & Hlen & Hit').
  cbn [batched_loop]. rewrite E.
  destruct xs as [|x xs]; [simpl in Hlen; lia|].
  now rewrite (IH it' Hit').
Qed.
End BatchedMore.

(** X11: over a finite iterable of [n] elements and with a positive
    [size] up to [sys.maxsize], [batched_iterable] yields [n / size]
    batches, rounded up, and batch [i] (from 0) holds the elements from
    [i * size] on, [size] of them or what is left. *)
Theorem batched_iterable_slices {T S : Type} (next : S -> option (T * S))
    (it : S) (l : list T) (size : Z) (fuel : nat) :
  drains next it l -> (0 < size <= maxsize)%Z -> List.length l < fuel ->
  exists batches,
    batched_iterable next fuel it size = Exhausted batches /\
    List.length batches =
    (List.length l + Z.to_nat size - 1) / Z.to_nat size /\
    forall i, i < List.length batches ->
      nth i batches [] = firstn (Z.to_nat size) (skipn (i * Z.to_nat size) l).
Proof.
  intros Hdr Hsize Hfuel.
  assert (Hpos : 0 < Z.to_nat size) by lia.
  destruct (batched_loop_slices Hpos Hdr Hfuel) as (batches & Hloop & Hrest).
  exists batches. split; [|exact Hrest].
  unfold batched_iterable. rewrite Hloop.
  destruct (Z.ltb_spec size 0); [lia|].
  destruct (Z.ltb_spec maxsize size); [lia | reflexivity].
Qed.

(** X12: over an iterator that never stops and with a positive [size]
    up to [sys.maxsize], [batched_iterable] never comes to its end,
    however many turns it is given; with a [size] that is negative or
    above [sys.maxsize] its first turn raises [ValueError], whatever the
    iterator, and no batch is yielded. *)
Theorem batched_iterable_endless {T S : Type} (next : S -> option (T * S))
    (it : S) (size : Z) (fuel : nat) :
  (endless next it -> (0 < size <= maxsize)%Z ->
   batched_iterable next fuel it size = Running) /\
  ((size < 0 \/ maxsize < size)%Z ->
   exists msg,
     batched_iterable next (Datatypes.S fuel) it size
     = Raised (ValueError msg)).
Proof.
  split.
  - intros (P & Hit & Hstep) Hsize.
    assert (Hpos : 0 < Z.to_nat size) by lia.
    unfold batched_iterable.
    rewrite (@batched_loop_endless _ _ next P _ Hstep Hpos fuel it Hit).
    destruct (Z.ltb_spec size 0); [lia|].
    destruct (Z.ltb_spec maxsize size); [lia | reflexivity].
  - intros Hout. unfold batched_iterable.
    destruct (Z.ltb_spec size 0); [eexists; reflexivity|].
    destruct (Z.ltb_spec maxsize size); [eexists; reflexivity | lia].
Qed.

Lemma count_endless (start : nat) : endless count_next start.
Proof.
  exists (fun _ => True). split; [exact I|].
  intros s _. exists s, (Datatypes.S s). now split.
Qed.

Lemma batched_iterable_slices_witness :
  drains list_next [1; 2; 3; 4; 5; 6; 7] [1; 2; 3; 4; 5; 6; 7] /\
  (0 < 3 <= maxsize)%Z /\ List.length [1; 2; 3; 4; 5; 6; 7] < 8 /\
  exists batches,
    batched_iterable list_next 8 [1; 2; 3; 4; 5; 6; 7] 3 = Exhausted batches /\
    List.length batches =
    (List.length [1; 2; 3; 4; 5; 6; 7] + Z.to_nat 3 - 1) / Z.to_nat 3 /\
    forall i, i < List.length batches ->
      nth i batches [] =
      firstn (Z.to_nat 3) (skipn (i * Z.to_nat 3) [1; 2; 3; 4; 5; 6; 7]).
Proof.
  assert (Hdr : drains list_next [1; 2; 3; 4; 5; 6; 7] [1; 2; 3; 4; 5; 6; 7])
    by apply drains_list.
  assert (Hsize : (0 < 3 <= maxsize)%Z) by (unfold maxsize; lia).
  assert (Hfuel : List.length [1; 2; 3; 4; 5; 6; 7] < 8) by (simpl; lia).
  exact (conj Hdr (conj Hsize (conj Hfuel
    (batched_iterable_slices Hdr Hsize Hfuel)))).
Defined.

Lemma batched_iterable_endless_witness :
  endless count_next 0 /\ (0 < 3 <= maxsize)%Z /\
  batched_iterable count_next 100 0 3 = Running /\
  (-1 < 0 \/ maxsize < -1)%Z /\
  (exists msg, batched_iterable count_next 1 0 (-1) = Raised (ValueError msg)) /\
  (9223372036854775808 < 0 \/ maxsize < 9223372036854775808)%Z /\
  exists msg,
    batched_iterable count_next 1 0 9223372036854775808
    = Raised (ValueError msg).
Proof.
  assert (Hend : endless count_next 0) by apply count_endless.
  assert (Hsize : (0 < 3 <= maxsize)%Z) by (unfold maxsize; lia).
  assert (Hneg : (-1 < 0 \/ maxsize < -1)%Z) by (left; lia).
  assert (Hbig : (9223372036854775808 < 0 \/ maxsize < 9223372036854775808)%Z)
    by (right; unfold maxsize; lia).
  split; [exact Hend|]. split; [exact Hsize|]. split.
  - exact (proj1 (batched_iterable_endless count_next 0 3 100) Hend Hsize).
  - split; [exact Hneg|]. split.
    + exact (proj2 (batched_iterable_endless count_next 0 (-1) 0) Hneg).
    + split; [exact Hbig|].
      exact (proj2 (batched_iterable_endless count_next 0 9223372036854775808 0)
               Hbig).
Defined.
End batched_more.

(* ================================================================== *)
(** * More on [variables.get] *)
(* ================================================================== *)

Module variables_more.
Import variables.

(** X13: [get] asks the boundary once and leaves the state the
    boundary left; it raises exactly when the boundary does, with the same
    exception; and with a default given it never returns [None]. *)
Theorem get_asks_once {World : Type}
    (read_variable_by_name : string -> io World (option Variable_))
    (name : string) (default : option string) (w : World) :
  snd (get read_variable_by_name name default w)
  = snd (read_variable_by_name name w) /\
  (forall e,
     fst (get read_variable_by_name name default w) = Raise e <->
     fst (read_variable_by_name name w) = Raise e) /\
  (forall d, fst (get read_variable_by_name name (Some d) w) <> Ok None).
Proof.
  unfold get, _get_variable_by_name, io_bind, io_ret.
  destruct (read_variable_by_name name w) as [[[v|]|e] w']; simpl;
    repeat split; intros; try discriminate; try congruence.
Qed.
End variables_more.

(* ================================================================== *)
(** * More on flows *)
(* ================================================================== *)

Module flow_more.
Import pydict pydict_facts flow flow_facts.
Open Scope string_scope.

Ltac skip_attribute := rewrite getattr_setattr_other by discriminate.

Section FlowMore.
Context {World RunId ParameterSchema : Type}.
Context {boundary : Boundary (World := World) (RunId := RunId)
                      (ParameterSchema := ParameterSchema)}.
Local Abbreviation Flow := (Flow (ParameterSchema := ParameterSchema)).
Implicit Types (self : Flow) (c : callable_obj) (fn : pyobj) (a : Args).

(** The attributes [__init__] sets after [update_wrapper]. *)
Lemma init_late_attributes name fn version executor description tags self :
  __init__ name fn version executor description tags = Ok self ->
  exists c flow_file version' stored parameters,
    fn = PyCallable c /\ truth c = true /\
    __globals__ c = Some flow_file /\
    match given version with
    | Some v => version' = PyStr v
    | None =>
        match given flow_file with
        | Some path => exists h, file_hash path = Ok h /\ version' = PyStr h
        | None => version' = PyNone
        end
    end /\
    parameter_schema stored = Ok parameters /\
    getattr self "version" = Ok (Plain version') /\
    getattr self "executor" = Ok (Plain executor) /\
    getattr self "__wrapped__" = Ok (Plain (PyCallable c)) /\
    getattr self "fn" = Ok stored /\
    getattr self "parameters" = Ok (Schema parameters).
Proof.
  unfold __init__. destruct (negb (truthy fn)) eqn:Htruth; [discriminate|].
  destruct fn as [| | | |c]; try discriminate.
  assert (Hbind : forall (m : res pyobj) (k : pyobj -> res Flow),
    (x <- m ;; k x) = Ok self -> exists x, m = Ok x /\ k x = Ok self).
  { intros [x|e] k E; [now exists x | discriminate]. }
  intros Hinit. apply Hbind in Hinit. destruct Hinit as (name' & _ & Hinit).
  unfold validate_arguments in Hinit.
  destruct (ValidatedFunction c) as [[]|]; [|discriminate].
  cbn [bind] in Hinit.
  destruct (__globals__ c) as [flow_file|] eqn:Hglobals; [|discriminate].
  cbn [bind] in Hinit. apply Hbind in Hinit.
  destruct Hinit as (version' & Hversion & Hinit).
  match type of Hinit with
  | (x <- getattr ?s "fn" ;; _) = _ =>
      destruct (getattr s "fn") as [stored|] eqn:Hfn
  end; [|discriminate].
  cbn [bind] in Hinit.
  destruct (parameter_schema stored) as [parameters|] eqn:Hschema;
    [|discriminate].
  cbn [bind] in Hinit. inversion Hinit as [Hself]. clear Hinit.
  exists c, flow_file, version', stored, parameters.
  split; [reflexivity|]. split.
  { simpl in Htruth. now destruct (truth c). }
  split; [exact Hglobals|]. split.
  { destruct (given version) as [v|]; [now inversion Hversion|].
    destruct (given flow_file) as [path|]; [|now inversion Hversion].
    destruct (file_hash path) as [h|]; [|discriminate].
    exists h. split; [reflexivity | now inversion Hversion]. }
  split; [exact Hschema|].
  split; [do 3 skip_attribute; apply getattr_setattr_same|].
  split; [do 2 skip_attribute; apply getattr_setattr_same|].
  split.
  { do 4 skip_attribute. unfold update_wrapper. apply getattr_setattr_same. }
  split; [skip_attribute; exact Hfn|].
  apply getattr_setattr_same.
Qed.

(** X14: the version of a constructed [Flow] is the version given to
    the constructor when there is one; otherwise the hash of the file
    named by [__file__] in the callable's globals; otherwise [None].  The
    attributes of the callable do not change it. *)
Theorem init_version name fn version executor description tags self :
  __init__ name fn version executor description tags = Ok self ->
  exists c flow_file,
    fn = PyCallable c /\ __globals__ c = Some flow_file /\
    match given version with
    | Some v => getattr self "version" = Ok (Plain (PyStr v))
    | None =>
        match given flow_file with
        | Some path =>
            exists h,
              file_hash path = Ok h /\
              getattr self "version" = Ok (Plain (PyStr h))
        | None => getattr self "version" = Ok (Plain PyNone)
        end
    end.
Proof.
  intros Hinit. apply init_late_attributes in Hinit.
  destruct Hinit as (c & flow_file & version' & stored & parameters & -> & _
                     & Hglobals & Hversion & _ & Hget & _).
  exists c, flow_file. split; [reflexivity|]. split; [exact Hglobals|].
  destruct (given version) as [v|]; [now subst version'|].
  destruct (given flow_file) as [path|]; [|now subst version'].
  destruct Hversion as (h & Hhash & ->). now exists h.
Qed.

(** X15: a constructed [Flow] holds the callable it was built from
    under [__wrapped__] and the executor it was given under [executor],
    and its [parameters] are the schema of the callable it holds under
    [fn]; the attributes of the callable do not change these. *)
Theorem init_records name fn version executor description tags self :
  __init__ name fn version executor description tags = Ok self ->
  exists c stored parameters,
    fn = PyCallable c /\
    getattr self "__wrapped__" = Ok (Plain (PyCallable c)) /\
    getattr self "executor" = Ok (Plain executor) /\
    getattr self "fn" = Ok stored /\
    parameter_schema stored = Ok parameters /\
    getattr self "parameters" = Ok (Schema parameters).
Proof.
  intros Hinit. apply init_late_attributes in Hinit.
  destruct Hinit as (c & flow_file & version' & stored & parameters & -> & _
                     & _ & _ & Hschema & _ & Hexec & Hwrapped & Hfn & Hparams).
  exists c, stored, parameters. repeat split; assumption.
Qed.

(** The name the constructor settles on, when there is one. *)
Lemma init_name c name :
  given name <> None \/ getattr_callable c "__name__" <> None ->
  exists n,
    match given name with
    | Some n => Ok (PyStr n)
    | None =>
        match getattr_callable c "__name__" with
        | Some n => Ok n
        | None => Raise (AttributeError "__name__")
        end
    end = Ok n.
Proof.
  intros Hname. destruct (given name) as [n|]; [eauto|].
  destruct (getattr_callable c "__name__"); [eauto|].
  destruct Hname; congruence.
Qed.

(** X16: a callable that is false in a condition is refused as a
    missing [fn]; a callable without a [__name__] is refused when no name
    is given; with a name, a callable that pydantic does not take is
    refused with pydantic's exception; and a callable that pydantic takes
    and that has no [__globals__] is refused even when a version is
    given. *)
Theorem init_refuses_callable c name version executor description tags :
  (truth c = false ->
   exists msg,
     __init__ name (PyCallable c) version executor description tags
     = Raise (TypeError msg)) /\
  (truth c = true -> given name = None ->
   getattr_callable c "__name__" = None ->
   __init__ name (PyCallable c) version executor description tags
   = Raise (AttributeError "__name__")) /\
  (forall e,
   truth c = true ->
   given name <> None \/ getattr_callable c "__name__" <> None ->
   ValidatedFunction c = Raise e ->
   __init__ name (PyCallable c) version executor description tags
   = Raise e) /\
  (truth c = true ->
   given name <> None \/ getattr_callable c "__name__" <> None ->
   ValidatedFunction c = Ok tt ->
   __globals__ c = None ->
   __init__ name (PyCallable c) version executor description tags
   = Raise (AttributeError "__globals__")).
Proof.
  unfold __init__, validate_arguments. simpl truthy. split; [|split; [|split]].
  - intros ->. simpl. eauto.
  - intros -> -> ->. reflexivity.
  - intros e -> Hname ->. simpl negb. cbv iota.
    destruct (init_name c name Hname) as [n ->]. reflexivity.
  - intros -> Hname -> ->. simpl negb. cbv iota.
    destruct (init_name c name Hname) as [n ->]. reflexivity.
Qed.

(** X17: [file_hash] counts only when no version is given: with a
    version the constructor returns the same with any other [file_hash];
    without one, for a callable that pydantic takes and with a file to
    hash, an error of [file_hash] is the error of the constructor. *)
Theorem init_file_hash name fn version executor description tags :
  (forall hash,
     given version <> None ->
     __init__ (boundary := with_file_hash hash boundary)
       name fn version executor description tags
     = __init__ name fn version executor description tags) /\
  (forall c path e,
     fn = PyCallable c -> truth c = true ->
     given name <> None \/ getattr_callable c "__name__" <> None ->
     ValidatedFunction c = Ok tt ->
     given version = None ->
     __globals__ c = Some (Some path) -> given (Some path) = Some path ->
     file_hash path = Raise e ->
     __init__ name fn version executor description tags = Raise e).
Proof.
  split.
  - intros hash Hversion. unfold __init__.
    destruct (given version) as [v|]; [reflexivity | congruence].
  - intros c path e -> Htruth Hname Hchecked Hversion Hglobals Hpath Hhash.
    unfold __init__, validate_arguments. simpl truthy.
    rewrite Htruth, Hchecked, Hversion, Hglobals.
    simpl negb. cbv iota.
    destruct (init_name c name Hname) as [n ->].
    cbn [bind]. rewrite Hpath, Hhash. reflexivity.
Qed.

(** *** Invocation *)

(** X18: an invocation whose arguments do not bind, or of an object
    without [fn], raises before anything is registered: the world and the
    trace are as they were. *)
Theorem call_fails_before_registration self a st :
  (forall e, getattr self "fn" = Raise e -> __call__ self a st = (Raise e, st)) /\
  (forall stored e,
     getattr self "fn" = Ok stored -> bind_partial stored a = Raise e ->
     __call__ self a st = (Raise e, st)).
Proof.
  unfold __call__, io_bind, io_lift. split.
  - intros e ->. reflexivity.
  - intros stored e -> ->. reflexivity.
Qed.

(** X19: when the instance holds no [_run] of its own, an error of
    the coercion, or of the body of the callable, comes after the
    registration: the invocation raises that error and returns no handle,
    and the run stays registered.  So it is with an entry [_run] of the
    instance that cannot be called: the invocation raises [TypeError]
    after the run is registered. *)
Theorem call_fails_after_registration self c a parameters id st w1 e :
  getattr self "fn" = Ok (Validated c) ->
  bind_partial (Validated c) a = Ok parameters ->
  create_flow_run_sync self parameters (world st) = (Ok id, w1) ->
  (get self "_run" = None -> coerce c a = Raise e ->
   __call__ self a st =
   (Raise e,
    {| world := w1; trace := (trace st ++ [Registration (Ok id)])%list |})) /\
  (forall a' w2,
     get self "_run" = None ->
     coerce c a = Ok a' -> body c a' w1 = (Raise e, w2) ->
     __call__ self a st =
     (Raise e,
      {| world := w2;
         trace := (trace st ++ [Registration (Ok id); Execution c])%list |})) /\
  (forall own,
     get self "_run" = Some (Plain own) -> callable own = false ->
     exists msg,
       __call__ self a st =
       (Raise (TypeError msg),
        {| world := w1; trace := (trace st ++ [Registration (Ok id)])%list |})).
Proof.
  intros Hfn Hbind Hreg.
  unfold __call__, register, io_bind, io_lift, io_ret.
  rewrite Hfn, Hbind, Hreg. cbn [world trace]. split; [|split].
  - intros Hrun Hcoerce.
    rewrite (@call_run_validated _ _ _ _ self c a _ Hrun Hfn), Hcoerce.
    reflexivity.
  - intros a' w2 Hrun Hcoerce Hbody.
    rewrite (@call_run_validated _ _ _ _ self c a _ Hrun Hfn), Hcoerce.
    cbn [world trace]. rewrite Hbody, <- app_assoc. reflexivity.
  - intros own Hrun Hown. unfold call_run, call, io_raise. rewrite Hrun.
    destruct own; try discriminate Hown; eexists; reflexivity.
Qed.
End FlowMore.

Import samples.

Lemma greet_flow_built :
  __init__ (boundary := counting) None (PyCallable greet) None PyNone None
    (Some ["a"; "a"; "b"]) = Ok greet_flow.
Proof. reflexivity. Qed.

Lemma init_version_witness :
  __init__ (boundary := counting) None (PyCallable greet) None PyNone None
    (Some ["a"; "a"; "b"]) = Ok greet_flow /\
  exists c flow_file,
    PyCallable greet = PyCallable c /\ __globals__ c = Some flow_file /\
    match given None with
    | Some v => getattr greet_flow "version" = Ok (Plain (PyStr v))
    | None =>
        match given flow_file with
        | Some path =>
            exists h,
              file_hash (Boundary := counting) path = Ok h /\
              getattr greet_flow "version" = Ok (Plain (PyStr h))
        | None => getattr greet_flow "version" = Ok (Plain PyNone)
        end
    end.
Proof.
  exact (conj greet_flow_built
    (init_version (boundary := counting) None (PyCallable greet) None PyNone
       None (Some ["a"; "a"; "b"]) greet_flow_built)).
Defined.

Lemma init_records_witness :
  __init__ (boundary := counting) None (PyCallable greet) None PyNone None
    (Some ["a"; "a"; "b"]) = Ok greet_flow /\
  exists c stored parameters,
    PyCallable greet = PyCallable c /\
    getattr greet_flow "__wrapped__" = Ok (Plain (PyCallable c)) /\
    getattr greet_flow "executor" = Ok (Plain PyNone) /\
    getattr greet_flow "fn" = Ok stored /\
    parameter_schema (Boundary := counting) stored = Ok parameters /\
    getattr greet_flow "parameters" = Ok (Schema parameters).
Proof.
  exact (conj greet_flow_built
    (init_records (boundary := counting) None (PyCallable greet) None PyNone
       None (Some ["a"; "a"; "b"]) greet_flow_built)).
Defined.

Lemma init_refuses_callable_witness :
  (truth falsy_callable = false /\
   exists msg,
     __init__ (boundary := counting) (Some "f") (PyCallable falsy_callable)
       None PyNone None None = Raise (TypeError msg)) /\
  (truth partial_object = true /\ given None = None /\
   getattr_callable partial_object "__name__" = None /\
   __init__ (boundary := counting) None (PyCallable partial_object)
     None PyNone None None = Raise (AttributeError "__name__")) /\
  (truth partial_object = true /\
   (given (Some "f") <> None
    \/ getattr_callable partial_object "__name__" <> None) /\
   ValidatedFunction (Boundary := strict) partial_object
   = Raise (TypeError "is not a module, class, method, or function.") /\
   __init__ (boundary := strict) (Some "f") (PyCallable partial_object)
     None PyNone None None
   = Raise (TypeError "is not a module, class, method, or function.")) /\
  (truth builtin_len = true /\
   (given None <> None \/ getattr_callable builtin_len "__name__" <> None) /\
   ValidatedFunction (Boundary := counting) builtin_len = Ok tt /\
   __globals__ builtin_len = None /\
   __init__ (boundary := counting) None (PyCallable builtin_len)
     (Some "1.0") PyNone None None = Raise (AttributeError "__globals__")).
Proof.
  assert (Hfalse : truth falsy_callable = false) by reflexivity.
  assert (Hpartial : truth partial_object = true) by reflexivity.
  assert (Hgiven : given None = None) by reflexivity.
  assert (Hnameless : getattr_callable partial_object "__name__" = None)
    by reflexivity.
  assert (Hcalled : given (Some "f") <> None
                    \/ getattr_callable partial_object "__name__" <> None)
    by (left; discriminate).
  assert (Hrefused : ValidatedFunction (Boundary := strict) partial_object
                     = Raise (TypeError "is not a module, class, method, or function."))
    by reflexivity.
  assert (Hlen : truth builtin_len = true) by reflexivity.
  assert (Hnamed : given None <> None
                   \/ getattr_callable builtin_len "__name__" <> None)
    by (right; discriminate).
  assert (Htaken : ValidatedFunction (Boundary := counting) builtin_len
                   = Ok tt) by reflexivity.
  assert (Hglobals : __globals__ builtin_len = None) by reflexivity.
  split; [|split; [|split]].
  - split; [exact Hfalse|].
    exact (proj1 (init_refuses_callable (boundary := counting) falsy_callable
                    (Some "f") None PyNone None None) Hfalse).
  - split; [exact Hpartial|]. split; [exact Hgiven|]. split; [exact Hnameless|].
    exact (proj1 (proj2 (init_refuses_callable (boundary := counting)
                           partial_object None None PyNone None None))
             Hpartial Hgiven Hnameless).
  - split; [exact Hpartial|]. split; [exact Hcalled|]. split; [exact Hrefused|].
    exact (proj1 (proj2 (proj2 (init_refuses_callable (boundary := strict)
                                  partial_object (Some "f") None PyNone None
                                  None)))
             _ Hpartial Hcalled Hrefused).
  - split; [exact Hlen|]. split; [exact Hnamed|]. split; [exact Htaken|].
    split; [exact Hglobals|].
    exact (proj2 (proj2 (proj2 (init_refuses_callable (boundary := counting)
                                  builtin_len None (Some "1.0") PyNone None
                                  None)))
             Hlen Hnamed Htaken Hglobals).
Defined.

Lemma init_file_hash_witness :
  (given (Some "1.0") <> None /\
   __init__ (boundary := with_file_hash (fun _ => Raise (BoundaryError 2)) counting)
     None (PyCallable greet) (Some "1.0") PyNone None None
   = __init__ (boundary := counting)
       None (PyCallable greet) (Some "1.0") PyNone None None) /\
  (truth greet = true /\
   (given None <> None \/ getattr_callable greet "__name__" <> None) /\
   ValidatedFunction (Boundary := unreadable) greet = Ok tt /\
   given None = None /\
   __globals__ greet = Some (Some "flows.py") /\
   given (Some "flows.py") = Some "flows.py" /\
   file_hash (Boundary := unreadable) "flows.py" = Raise (BoundaryError 2) /\
   __init__ (boundary := unreadable) None (PyCallable greet) None PyNone None
     None = Raise (BoundaryError 2)).
Proof.
  assert (Hversion : given (Some "1.0") <> None) by discriminate.
  assert (Htruth : truth greet = true) by reflexivity.
  assert (Hname : given None <> None
                  \/ getattr_callable greet "__name__" <> None)
    by (right; discriminate).
  assert (Htaken : ValidatedFunction (Boundary := unreadable) greet = Ok tt)
    by reflexivity.
  assert (Hnone : given None = None) by reflexivity.
  assert (Hglobals : __globals__ greet = Some (Some "flows.py")) by reflexivity.
  assert (Hpath : given (Some "flows.py") = Some "flows.py") by reflexivity.
  assert (Hhash : file_hash (Boundary := unreadable) "flows.py"
                  = Raise (BoundaryError 2)) by reflexivity.
  split.
  - split; [exact Hversion|].
    exact (proj1 (init_file_hash (boundary := counting) None (PyCallable greet)
                    (Some "1.0") PyNone None None)
             (fun _ => Raise (BoundaryError 2)) Hversion).
  - split; [exact Htruth|]. split; [exact Hname|]. split; [exact Htaken|].
    split; [exact Hnone|].
    split; [exact Hglobals|]. split; [exact Hpath|]. split; [exact Hhash|].
    exact (proj2 (init_file_hash (boundary := unreadable) None
                    (PyCallable greet) None PyNone None None)
             greet "flows.py" (BoundaryError 2) eq_refl Htruth Hname Htaken
             Hnone Hglobals Hpath Hhash).
Defined.

Lemma call_fails_before_registration_witness :
  let st := {| world := 7; trace := [] |} in
  (getattr (ParameterSchema := list string) [] "fn"
   = Raise (AttributeError "fn") /\
   __call__ (boundary := fussy) [] three_arguments st
   = (Raise (AttributeError "fn"), st)) /\
  (getattr greet_flow "fn" = Ok (Validated greet) /\
   bind_partial (Boundary := fussy) (Validated greet) three_arguments
   = Raise (TypeError "too many positional arguments") /\
   __call__ (boundary := fussy) greet_flow three_arguments st
   = (Raise (TypeError "too many positional arguments"), st)).
Proof.
  intros st.
  assert (Hmissing : getattr (ParameterSchema := list string) [] "fn"
                     = Raise (AttributeError "fn")) by reflexivity.
  assert (Hfn : getattr greet_flow "fn" = Ok (Validated greet)) by reflexivity.
  assert (Hbind : bind_partial (Boundary := fussy) (Validated greet)
                    three_arguments
                  = Raise (TypeError "too many positional arguments"))
    by reflexivity.
  split.
  - split; [exact Hmissing|].
    exact (proj1 (call_fails_before_registration (boundary := fussy) []
                    three_arguments st) _ Hmissing).
  - split; [exact Hfn|]. split; [exact Hbind|].
    exact (proj2 (call_fails_before_registration (boundary := fussy)
                    greet_flow three_arguments st) _ _ Hfn Hbind).
Defined.

Lemma call_fails_after_registration_witness :
  let st := {| world := 7; trace := [] |} in
  getattr greet_flow "fn" = Ok (Validated greet) /\
  bind_partial (Boundary := fussy) (Validated greet) string_first = Ok [] /\
  create_flow_run_sync (Boundary := fussy) greet_flow [] (world st) = (Ok 7, 8) /\
  get greet_flow "_run" = None /\
  coerce (Boundary := fussy) greet string_first
  = Raise (ValueError "value is not a valid integer") /\
  __call__ (boundary := fussy) greet_flow string_first st =
  (Raise (ValueError "value is not a valid integer"),
   {| world := 8; trace := (trace st ++ [Registration (Ok 7)])%list |}).
Proof.
  intros st.
  assert (Hfn : getattr greet_flow "fn" = Ok (Validated greet)) by reflexivity.
  assert (Hbind : bind_partial (Boundary := fussy) (Validated greet)
                    string_first = Ok []) by reflexivity.
  assert (Hreg : create_flow_run_sync (Boundary := fussy) greet_flow []
                   (world st) = (Ok 7, 8)) by reflexivity.
  assert (Hrun : get greet_flow "_run" = None) by reflexivity.
  assert (Hcoerce : coerce (Boundary := fussy) greet string_first
                    = Raise (ValueError "value is not a valid integer"))
    by reflexivity.
  exact (conj Hfn (conj Hbind (conj Hreg (conj Hrun (conj Hcoerce
    (proj1 (call_fails_after_registration (boundary := fussy) greet_flow
              string_first st (ValueError "value is not a valid integer")
              Hfn Hbind Hreg) Hrun Hcoerce)))))).
Defined.

(** The body that raises. *)
Example call_body_raises :
  __call__ (boundary := fussy) greet_flow zero_first
    {| world := 7; trace := [] |} =
  (Raise (ValueError "division by zero"),
   {| world := 8; trace := [Registration (Ok 7); Execution greet] |}).
Proof. reflexivity. Qed.
End flow_more.
